(** * koordinates-base: the CSV batch reader of [KoordinatesDataset]

    A shallow embedding of the initial-dataset helpers of [src/index.ts]
    ([getRecordCount], [readCSVInBatches], [csvToJson],
    [downloadInitialDatasetFromS3], [getInitialDatasetInBatch]) and the
    properties the specification states about them.

    Conventions.
    - A file is seen through Node's [readline]: the sequence of ['line']
      events of its read stream, each carrying one line without its
      terminator.  A stream may also emit ['error'].
    - [start], [batch] and [recordCount] are JavaScript numbers holding
      integers; they are modelled as [Z].
    - A promise is modelled by the way it settles. *)

From stdpp Require Import base strings list gmap pretty.
From Stdlib Require Import ZArith Lia Ascii.

Local Open Scope string_scope.
Local Open Scope list_scope.

(** ** Promises and streams *)

(** How a [Promise] ends: [resolve] was called, [reject] was called (or an
    [async] body threw), or neither ever is because an ['error'] event was
    emitted on an emitter that has no ['error'] listener. *)
Inductive Promise (A : Type) : Type :=
  | Resolved (value : A)
  | Rejected (message : string)
  | Unsettled (unhandled : string).
Arguments Resolved {A} value.
Arguments Rejected {A} message.
Arguments Unsettled {A} unhandled.

(** What a read stream piped through [readline.createInterface] delivers. *)
Inductive StreamEvent : Type :=
  | line (row : string)
  | error (err : string).

(** [fs.createReadStream(filePath)]: it throws synchronously (an argument
    it refuses) or returns a stream; a file that cannot be opened is
    reported later, by an ['error'] event of the stream. *)
Inductive ReadStream : Type :=
  | throws (err : string)
  | emits (events : list StreamEvent).

(** ** papaparse

    [csvToJson] calls [papa.parse] of the package papaparse, which the
    repository imports and does not contain.  The module below stands for
    that call under the configuration [csvToJson] passes (the double quote
    as quote character, header mode). *)

Module Papa.

(** Modelled from the spec: the values of a record of [papa.parse], a
    "mapping from header name to field value (strings)"; the fields a line
    has beyond the header's are kept as an array under [__parsed_extra]. *)
Inductive JsValue : Type :=
  | JStr (s : string)
  | JArr (items : list string).

#[global] Instance JsValue_eq_dec : EqDecision JsValue.
Proof. solve_decision. Defined.

Abbreviation JsObject := (gmap string JsValue).

(** Modelled from the spec: papaparse's [ParseResult], of which
    [csvToJson] reads [data] only. *)
Record ParseResult (A : Type) : Type := { data : list A }.
Arguments data {A} _.

(** Modelled from the spec: the state of the row scanner of [papa.parse]:
    where it is in the field, the text of the field, the fields of the row
    and the rows read so far. *)
Inductive Mode : Type := FieldStart | Unquoted | Quoted | QuoteSeen.

Record Scanner : Type := {
  mode : Mode;
  field : string;
  row : list string;
  rows : list (list string)
}.

(** Modelled from the spec: the moves of the scanner of [papa.parse]:
    the initial state, one more character in the field, the end of a
    field, the end of a row. *)
Definition start : Scanner :=
  {| mode := FieldStart; field := ""; row := []; rows := [] |}.

Definition put (c : ascii) (m : Mode) (s : Scanner) : Scanner :=
  {| mode := m; field := field s +:+ String c ""; row := row s; rows := rows s |}.

Definition endField (s : Scanner) : Scanner :=
  {| mode := FieldStart; field := ""; row := row s ++ [field s]; rows := rows s |}.

Definition endRow (s : Scanner) : Scanner :=
  {| mode := FieldStart; field := ""; row := [];
     rows := rows s ++ [row s ++ [field s]] |}.

Definition quoteChar : ascii := "034"%char.
Definition delimiter : ascii := ","%char.
Definition newline : ascii := "010"%char.

(** Modelled from the spec: the row scanner of [papa.parse], a package
    the repository imports.  The specification has a line's "delimited
    fields, honoring quoted fields that may contain the delimiter"; the
    configuration in [csvToJson] fixes [quoteChar] to the double quote,
    the delimiter is the comma and rows end at a line feed.  A field that
    opens with the quote character runs to its closing quote, a doubled
    quote inside it standing for one quote character; everywhere else the
    quote character is ordinary text. *)
Definition step (s : Scanner) (c : ascii) : Scanner :=
  match mode s with
  | FieldStart =>
      if decide (c = quoteChar) then
        {| mode := Quoted; field := ""; row := row s; rows := rows s |}
      else if decide (c = delimiter) then endField s
      else if decide (c = newline) then endRow s
      else put c Unquoted s
  | Unquoted =>
      if decide (c = delimiter) then endField s
      else if decide (c = newline) then endRow s
      else put c Unquoted s
  | Quoted =>
      if decide (c = quoteChar) then
        {| mode := QuoteSeen; field := field s; row := row s; rows := rows s |}
      else put c Quoted s
  | QuoteSeen =>
      if decide (c = quoteChar) then put c Quoted s
      else if decide (c = delimiter) then endField s
      else if decide (c = newline) then endRow s
      else put c Quoted (put quoteChar Quoted s)
  end.

(** Modelled from the spec: [papa.parse] reads its input from left to
    right. *)
Fixpoint scan (s : Scanner) (input : string) : Scanner :=
  match input with
  | EmptyString => s
  | String c rest => scan (step s c) rest
  end.

(** Modelled from the spec: the end of the input of [papa.parse] closes
    the field and the row in progress. *)
Definition finish (s : Scanner) : list (list string) :=
  rows s ++ [row s ++ [field s]].

(** Modelled from the spec: the rows [papa.parse] reads, none for the
    empty input. *)
Definition parseRows (input : string) : list (list string) :=
  if decide (input = "") then [] else finish (scan start input).

(** Modelled from the spec: the assignment [row[field] = value] of the
    header mode of [papa.parse]; the fields beyond the header's are
    collected in the array [__parsed_extra]. *)
Definition setField (obj : JsObject) (key value : string) : JsObject :=
  if decide (key = "__parsed_extra") then
    match obj !! key with
    | Some (JArr items) => <[key := JArr (items ++ [value])]> obj
    | _ => <[key := JArr [value]]> obj
    end
  else <[key := JStr value]> obj.

(** Modelled from the spec: [papa.parse] pairs "header fields
    positionally with the line's delimited fields". *)
Fixpoint fillRow (fields : list string) (values : list string)
    (obj : JsObject) : JsObject :=
  match values with
  | [] => obj
  | v :: values' =>
      match fields with
      | f :: fields' => fillRow fields' values' (setField obj f v)
      | [] => fillRow [] values' (setField obj "__parsed_extra" v)
      end
  end.

(** Modelled from the spec: the record [papa.parse] makes of a row. *)
Definition toObject (fields values : list string) : JsObject :=
  fillRow fields values ∅.

(** Modelled from the spec: [papa.parse] under the configuration of
    [csvToJson] (the double quote as quote character, header mode), of
    the imported package papaparse.  The first row gives the field
    names and every later row becomes a record "pairing header
    fields positionally with the line's delimited fields". *)
Definition parse (input : string) : ParseResult JsObject :=
  match parseRows input with
  | [] => {| data := [] |}
  | fields :: body => {| data := map (toObject fields) body |}
  end.

(** The fields of a single line, and whether a line leaves no quoted
    field open. *)
Definition fieldsOf (l : string) : list string :=
  row (scan start l) ++ [field (scan start l)].

Definition closesQuotes (l : string) : Prop := mode (scan start l) ≠ Quoted.

(** The scanner [s] with the rows [before] already behind it. *)
Definition prependRows (before : list (list string)) (s : Scanner) : Scanner :=
  {| mode := mode s; field := field s; row := row s; rows := before ++ rows s |}.

Fixpoint mentions (c : ascii) (s : string) : bool :=
  match s with
  | EmptyString => false
  | String c' rest => bool_decide (c' = c) || mentions c rest
  end.

(** A line as [readline] hands it over holds no line feed. *)
Definition oneLine (l : string) : Prop := mentions newline l = false.

Definition quoted (s : string) : string :=
  String quoteChar s +:+ String quoteChar "".

End Papa.

(** ** Files as the reader sees them *)

(** The line the reader ends up using as header: the first line that is
    not the empty string (the handler tests [headers == ""] to know
    whether the header is still to come). *)
Fixpoint capturedHeader (lines : list string) : string :=
  match lines with
  | [] => ""
  | l :: rest => if decide (l = "") then capturedHeader rest else l
  end.

(** The lines that follow the captured header. *)
Fixpoint dataLines (lines : list string) : list string :=
  match lines with
  | [] => []
  | l :: rest => if decide (l = "") then dataLines rest else rest
  end.

(** The rows whose zero-based position lies in [start, start+batch),
    [i] being the position of the first row given. *)
Fixpoint keepWindow (start batch i : Z) (rows : list string) : list string :=
  match rows with
  | [] => []
  | r :: rows' =>
      if bool_decide (start ≤ i)%Z && bool_decide (i < start + batch)%Z
      then r :: keepWindow start batch (i + 1) rows'
      else keepWindow start batch (i + 1) rows'
  end.

(** The arguments the specification calls valid. *)
Definition validWindow (start batch : Z) : Prop :=
  (0 ≤ start ∧ 0 < batch ∧ batch ≤ 100000)%Z.

(** The stream of a file that is read to its end without a fault. *)
Definition fileStream (lines : list string) : ReadStream :=
  emits (map line lines).

(** ** The reader *)

Section Reader.

(** The record type is [any] in the source; the parser is the imported
    [papa.parse] under the configuration of [csvToJson]. *)
Context {any : Type}.
Variable papa_parse : string -> Papa.ParseResult any.

(** [csvToJson]: [papaResp.data[0]], which is [undefined] when the parse
    produced no record. *)
Definition csvToJson (headers csv : string) : option any :=
  head (Papa.data (papa_parse (headers +:+ String Papa.newline "" +:+ csv))).

(** The variables the ['line'] handler of [readCSVInBatches] closes
    over, and whether it has called [rl.close()]. *)
Record ReaderState : Type := {
  records : list any;
  headers : string;
  recordCount : Z;
  closed : bool
}.

Definition initial : ReaderState :=
  {| records := []; headers := ""; recordCount := 0; closed := false |}.

(** The ['line'] handler of [readCSVInBatches]. *)
Definition onLine (start batch : Z) (st : ReaderState) (row : string) : ReaderState :=
  if decide (headers st = "") then
    {| records := records st; headers := row;
       recordCount := recordCount st; closed := closed st |}
  else if bool_decide (start ≤ recordCount st)%Z
          && bool_decide (recordCount st < start + batch)%Z then
    match csvToJson (headers st) row with
    | Some json =>
        {| records := records st ++ [json]; headers := headers st;
           recordCount := recordCount st + 1; closed := closed st |}
    | None =>
        {| records := records st; headers := headers st;
           recordCount := recordCount st + 1; closed := closed st |}
    end
  else if bool_decide (start + batch ≤ recordCount st)%Z then
    {| records := records st; headers := headers st;
       recordCount := recordCount st + 1; closed := true |}
  else
    {| records := records st; headers := headers st;
       recordCount := recordCount st + 1; closed := closed st |}.

(** [rl.close()] emits ['close'] at once: its handler runs, and
    resolves, inside the call, before the ['line'] handler goes on to
    [recordCount++].  The variables as the ['close'] handler finds them,
    given the state [before] the line and the state [after] it. *)
Definition atClose (before after : ReaderState) : ReaderState :=
  {| records := records after; headers := headers after;
     recordCount := recordCount before; closed := closed after |}.

(** The lines reach the handler in order until it calls [rl.close()];
    the state returned is the one the ['close'] handler sees when it
    resolves, at the end of the input or inside [rl.close()]. *)
Fixpoint feed (start batch : Z) (st : ReaderState) (lines : list string)
    : ReaderState :=
  match lines with
  | [] => st
  | row :: rest =>
      let st' := onLine start batch st row in
      if closed st' then atClose st st' else feed start batch st' rest
  end.

(** The interface delivers the events of the stream.  The end of the
    input closes it, and so does [rl.close()]; the ['close'] handler
    resolves with [records].  Nothing listens for ['error']. *)
Fixpoint deliver (start batch : Z) (st : ReaderState)
    (events : list StreamEvent) : Promise (list any) :=
  match events with
  | [] => Resolved (records st)
  | line row :: rest =>
      let st' := onLine start batch st row in
      if closed st' then Resolved (records st')
      else deliver start batch st' rest
  | error err :: _ => Unsettled err
  end.

(** [readCSVInBatches]: the [catch] covers what [fs.createReadStream]
    and [readline.createInterface] throw while the promise is set up. *)
Definition readCSVInBatches (createReadStream : string -> ReadStream)
    (filePath : string) (start batch : Z) : Promise (list any) :=
  match createReadStream filePath with
  | throws _ => Rejected ("Failed reading file " +:+ filePath)
  | emits events => deliver start batch initial events
  end.

(** The reader without its early stop: every line of the file reaches
    the handler, which keeps the lines of the window. *)
Definition scanWholeFile (start batch : Z) (lines : list string) : list any :=
  records (fold_left (onLine start batch) lines initial).

(** [readline] hands over the lines of a chunk of input one after the
    other, so lines of the chunk in progress may still reach the handler
    after it has called [rl.close()]; no further chunk is read. *)
Fixpoint deliverChunks (start batch : Z) (st : ReaderState)
    (chunks : list (list string)) : ReaderState :=
  match chunks with
  | [] => st
  | chunk :: rest =>
      let st' := fold_left (onLine start batch) chunk st in
      if closed st' then st' else deliverChunks start batch st' rest
  end.

(** Once the handler has called [rl.close()] the header is known and
    the count has passed the window. *)
Definition closedLate (start batch : Z) (st : ReaderState) : Prop :=
  closed st = true → headers st ≠ "" ∧ (start + batch ≤ recordCount st)%Z.

End Reader.

(** [getRecordCount]: the ['line'] handler counts, the ['close'] handler
    takes one off a positive count and resolves. *)
Fixpoint countLines (count : Z) (events : list StreamEvent) : Promise Z :=
  match events with
  | [] => Resolved (if bool_decide (0 < count)%Z then count - 1 else count)%Z
  | line _ :: rest => countLines (count + 1) rest
  | error err :: _ => Unsettled err
  end.

Definition getRecordCount (createReadStream : string -> ReadStream)
    (filePath : string) : Promise Z :=
  match createReadStream filePath with
  | throws _ => Rejected ("Failed reading file " +:+ filePath)
  | emits events => countLines 0 events
  end.

(** ** The dataset object and its surroundings *)

Inductive APIKind : Type := WFS | WMTS.

#[global] Instance APIKind_eq_dec : EqDecision APIKind.
Proof. solve_decision. Defined.

(** The fields of [KoordinatesDataset] the initial-dataset methods read. *)
Record KoordinatesDataset : Type := {
  apiKind : APIKind;
  initialDataset : string;
  initialDatasetLocation : string;
  initialDatasetTs : string
}.

(** What a method does to the outside, in program order. *)
Inductive IoAction : Type :=
  | ExistsSync (path : string)
  | Mkdir (path : string)
  | Fetch (url : string)
  | WriteFile (path : string)
  | Stat (path : string)
  | CreateReadStream (path : string)
  | ConsoleLog (message : string).

(** The local directories and files (a file as its lines), what the
    remote location serves, and the actions performed so far. *)
Record World : Type := {
  dirs : gset string;
  files : gmap string (list string);
  remote : gmap string (list string);
  trace : list IoAction
}.

Definition IO (A : Type) : Type := World → Promise A * World.

#[global] Instance IO_ret : MRet IO := fun A a w => (Resolved a, w).

Definition throw {A} (message : string) : IO A := fun w => (Rejected message, w).

(** Sequencing as [await] does: a promise that does not resolve ends the
    method there. *)
#[global] Instance IO_bind : MBind IO := fun A B k m w =>
  match m w with
  | (Resolved a, w') => k a w'
  | (Rejected message, w') => (Rejected message, w')
  | (Unsettled err, w') => (Unsettled err, w')
  end.

(** Reading the world, changing it, and awaiting a promise it decides. *)
Definition inspect {A} (f : World → A) : IO A := fun w => (Resolved (f w), w).

Definition change (f : World → World) : IO unit := fun w => (Resolved tt, f w).

Definition await {A} (f : World → Promise A) : IO A := fun w => (f w, w).

Definition perform (a : IoAction) : IO unit :=
  change (fun w =>
    {| dirs := dirs w; files := files w; remote := remote w;
       trace := trace w ++ [a] |}).

Definition existsSync (path : string) : IO bool :=
  perform (ExistsSync path) ;;
  inspect (fun w => bool_decide (path ∈ dirs w ∨ is_Some (files w !! path))).

(** [fs.mkdir(path, callback)]. *)
Definition mkdir (path : string) (callback : IO unit) : IO unit :=
  perform (Mkdir path) ;;
  change (fun w =>
    {| dirs := {[path]} ∪ dirs w; files := files w; remote := remote w;
       trace := trace w |}) ;;
  callback.

(** [fetch] followed by [arrayBuffer]; the request is rejected when the
    location serves nothing. *)
Definition fetch (url : string) : IO (list string) :=
  perform (Fetch url) ;;
  await (fun w =>
    match remote w !! url with
    | Some content => Resolved content
    | None => Rejected "fetch failed"
    end).

Definition writeFile (path : string) (content : list string) : IO unit :=
  perform (WriteFile path) ;;
  change (fun w =>
    {| dirs := dirs w; files := <[path := content]> (files w);
       remote := remote w; trace := trace w |}).

(** [waitForFile]: [stat] is polled until it succeeds or the timeout has
    passed; the waiting itself is not modelled. *)
Definition waitForFile (path : string) : IO (option string) :=
  perform (Stat path) ;;
  inspect (fun w => if files w !! path is Some _ then Some "Found" else None).

Definition createReadStream (w : World) (path : string) : ReadStream :=
  match files w !! path with
  | Some lines => fileStream lines
  | None => emits [error ("ENOENT: no such file or directory, open " +:+ path)]
  end.

(** The local copy of the initial dataset. *)
Definition datasetPath (this : KoordinatesDataset) : string :=
  "./datasets/" +:+ initialDataset this.

(** [if (!fs.existsSync(path)) { body }]. *)
Definition unlessExists (path : string) (body : IO unit) : IO unit :=
  existsSync path ≫= (λ present : bool, if present then mret tt else body).

Definition downloadInitialDatasetFromS3 (this : KoordinatesDataset) : IO unit :=
  unlessExists "./datasets"
    (mkdir "./datasets" (perform (ConsoleLog "./datasets folder exists."))) ;;
  unlessExists (datasetPath this) (
    perform (ConsoleLog "started downloading...") ;;
    buffer ← fetch (initialDatasetLocation this +:+ "/" +:+ initialDataset this);
    writeFile (datasetPath this) buffer ;;
    waitForFile (datasetPath this) ;;
    perform (ConsoleLog "file written!")).

Section Dataset.

Context {any : Type}.
Variable papa_parse : string -> Papa.ParseResult any.

Definition readCSVInBatchesIO (filePath : string) (start batch : Z)
    : IO (list any) :=
  perform (CreateReadStream filePath) ;;
  await (fun w =>
    readCSVInBatches papa_parse (createReadStream w) filePath start batch).

(** [getInitialDatasetInBatch]; [None] is the [undefined] of the branch
    that returns nothing. *)
Definition getInitialDatasetInBatch (this : KoordinatesDataset)
    (start batch : Z) : IO (option (list any)) :=
  if decide (apiKind this ≠ WFS) then
    throw "Initial dataset is available for WFS (Web Feature Service) only."
  else if bool_decide (batch ≤ 0)%Z || bool_decide (batch > 100000)%Z then
    throw "Batch size must be between 1 and 100000"
  else if bool_decide (initialDataset this ≠ "")
          && bool_decide (initialDatasetTs this ≠ "") then
    downloadInitialDatasetFromS3 this ;;
    records ← readCSVInBatchesIO (datasetPath this) start batch;
    mret (Some records)
  else if bool_decide (initialDatasetTs this ≠ "") then
    perform (ConsoleLog "loading initial data from Koordinate website") ;;
    mret None
  else
    throw "Initial dataset timestamp cannot be empty".

End Dataset.

Definition getInitialDatasetCount (this : KoordinatesDataset) : IO Z :=
  downloadInitialDatasetFromS3 this ;;
  perform (CreateReadStream (datasetPath this)) ;;
  await (fun w =>
    getRecordCount (createReadStream w) (datasetPath this)).


(** ** The files of the scenarios *)

Definition aliceBob : list string := ["id,name"; "1,Alice"; "2,Bob"].

Definition quotedNote : list string := ["id,note"; "1," +:+ Papa.quoted "a,b"].

Definition blankFirst : list string := [""; "id,name"; "1,Alice"].

Definition blankThenHeader : list string := [""; "id,name"].

(** A header whose quoted field is never closed, and a header whose
    quoted field holds a line break, so that it spans two lines. *)
Definition openQuoteHeader : list string :=
  [String Papa.quoteChar "id,name"; "1,Alice"].

Definition twoLineHeader : list string :=
  [String Papa.quoteChar "id"; "no" +:+ String Papa.quoteChar ",name"; "1,Alice"].

Definition onDisk (lines : list string) : string → ReadStream :=
  fun _ => fileStream lines.

Definition record2 (k1 v1 k2 v2 : string) : Papa.JsObject :=
  {[ k1 := Papa.JStr v1; k2 := Papa.JStr v2 ]}.

Definition emptyWorld : World :=
  {| dirs := ∅; files := ∅; remote := ∅; trace := [] |}.

(** The dataset of the README, the same without a timestamp, and one
    that names no file. *)
Definition nzAddresses : KoordinatesDataset :=
  {| apiKind := WFS; initialDataset := "nz-addresses.csv";
     initialDatasetLocation := "https://koordinates.example/initial";
     initialDatasetTs := "2023-12-20T00:00:00Z" |}.

Definition noTimestamp : KoordinatesDataset :=
  {| apiKind := WFS; initialDataset := "nz-addresses.csv";
     initialDatasetLocation := "https://koordinates.example/initial";
     initialDatasetTs := "" |}.

Definition noFileName : KoordinatesDataset :=
  {| apiKind := WFS; initialDataset := "";
     initialDatasetLocation := "";
     initialDatasetTs := "2023-12-20T00:00:00Z" |}.

(** A stream that breaks after two lines. *)
Definition brokenStream : list StreamEvent :=
  [line "id,name"; line "1,Alice"; error "EIO: i/o error, read"].

(** The world [w] after the further [actions]. *)
Definition logged (w : World) (actions : list IoAction) : World :=
  {| dirs := dirs w; files := files w; remote := remote w;
     trace := trace w ++ actions |}.

(** ** The whole dataset object *)

Module Client.

(** The part of the object the initial-dataset methods read, built here
    before the fields of the object take the same names. *)
Definition initialDatasetPart (kind : APIKind) (dataset location ts : string)
    : KoordinatesDataset :=
  {| apiKind := kind; initialDataset := dataset;
     initialDatasetLocation := location; initialDatasetTs := ts |}.

Module Params.

(** The interface [KoordinatesDatasetParams]; an optional field that is
    left out is [None]. *)
Record KoordinatesDatasetParams : Type := {
  koordinatesHost : string;
  name : string;
  layerId : option Z;
  tableId : option Z;
  apiVersion : string;
  version : string;
  apiKind : APIKind;
  initialDataset : string;
  initialDatasetLocation : string;
  initialDatasetTs : string;
  hasChangesets : option bool;
  hasSpatialInformation : option bool
}.

End Params.

(** The private fields of the class [KoordinatesDataset]; the two ids
    are JavaScript numbers holding integers. *)
Record KoordinatesDataset : Type := {
  koordinatesHost : string;
  name : string;
  layerId : Z;
  tableId : Z;
  apiVersion : string;
  version : string;
  apiKind : APIKind;
  initialDataset : string;
  initialDatasetLocation : string;
  initialDatasetTs : string;
  hasChangesets : bool;
  hasSpatialInformation : bool
}.

(** The constructor: it throws (left) or builds the object (right). *)
Definition constructor (params : Params.KoordinatesDatasetParams)
    : string + KoordinatesDataset :=
  if bool_decide (Params.layerId params = None ∧ Params.tableId params = None)
  then inl "layerId and tableId cannot be both undefined"
  else if bool_decide (Params.layerId params ≠ None ∧ Params.tableId params ≠ None)
  then inl "layerId and tableId cannot be assigned values"
  else inr
    {| koordinatesHost := Params.koordinatesHost params;
       name := Params.name params;
       layerId := match Params.layerId params with Some i => i | None => (-1)%Z end;
       tableId := match Params.tableId params with Some i => i | None => (-1)%Z end;
       apiKind := Params.apiKind params;
       apiVersion := Params.apiVersion params;
       version := Params.version params;
       initialDatasetTs := Params.initialDatasetTs params;
       initialDatasetLocation := Params.initialDatasetLocation params;
       initialDataset := Params.initialDataset params;
       hasChangesets :=
         match Params.hasChangesets params with Some b => b | None => false end;
       hasSpatialInformation :=
         match Params.hasSpatialInformation params with
         | Some b => b
         | None => false
         end |}.

(** The object as the initial-dataset methods see it. *)
Definition initialDatasetView (this : KoordinatesDataset) :=
  initialDatasetPart (apiKind this) (initialDataset this)
    (initialDatasetLocation this) (initialDatasetTs this).

(** The integers a JavaScript number holds exactly
    ([Number.MAX_SAFE_INTEGER] and below, in magnitude). *)
Definition safeInteger (n : Z) : Prop := (Z.abs n ≤ 9007199254740991)%Z.

(** A rendering of integers that writes the safe ones in decimal, as a
    template literal does; larger magnitudes are rounded or written with
    an exponent, which is left open. *)
Definition decimalOnSafe (render : Z → string) : Prop :=
  ∀ n, safeInteger n → render n = pretty n.

(** Whether [datasetId] speaks of a table, and the id it prints. *)
Definition usesTable (this : KoordinatesDataset) : bool :=
  bool_decide (0 < tableId this)%Z.

Definition usedId (this : KoordinatesDataset) : Z :=
  if usesTable this then tableId this else layerId this.

Section Endpoints.

(** The text a template literal gives a number that holds an integer;
    the bodies a response holds, the coordinates of a query (numbers that
    need not be integers) with the text a template literal gives them,
    and what the server answers to a request. *)
Variable integerToString : Z → string.
Context {any buffer number : Type}.
Variable numberToString : number → string.
Variable text : string → Promise string.
Variable json : string → Promise any.
Variable arrayBuffer : string → Promise buffer.

(** [datasetId]. *)
Definition datasetId (this : KoordinatesDataset) : string :=
  (if bool_decide (0 < tableId this)%Z then "table" else "layer")
  +:+ "-"
  +:+ integerToString (if bool_decide (0 < tableId this)%Z then tableId this
                       else layerId this).

Definition fetchText (endpoint : string) : IO string :=
  perform (Fetch endpoint) ;; await (fun _ => text endpoint).

Definition fetchJson (endpoint : string) : IO any :=
  perform (Fetch endpoint) ;; await (fun _ => json endpoint).

Definition fetchArrayBuffer (endpoint : string) : IO buffer :=
  perform (Fetch endpoint) ;; await (fun _ => arrayBuffer endpoint).

Definition wfsChangesetsEndpoint (this : KoordinatesDataset)
    (apiKey timestampFrom timestampTo : string) : string :=
  koordinatesHost this +:+ "/services;key=" +:+ apiKey +:+ "/wfs/"
  +:+ datasetId this +:+ "-changeset?SERVICE=WFS&VERSION=" +:+ version this
  +:+ "&REQUEST=GetFeature&typeNames=" +:+ datasetId this
  +:+ "-changeset&viewparams=from:" +:+ timestampFrom +:+ ";to:" +:+ timestampTo
  +:+ "&outputFormat=json".

Definition getWfsChangesets (this : KoordinatesDataset)
    (apiKey timestampFrom timestampTo : string) : IO any :=
  if negb (hasChangesets this) then
    throw ("Changesets API is not supported by dataset " +:+ name this +:+ ".")
  else if decide (apiKind this ≠ WFS) then
    throw "Changesets API is available for WFS (Web Feature Service) only."
  else fetchJson (wfsChangesetsEndpoint this apiKey timestampFrom timestampTo).

Definition vectorEndpoint (this : KoordinatesDataset) (format apiKey : string)
    (latitude longitude maxResult radius : number) : string :=
  koordinatesHost this +:+ "/services/query/" +:+ apiVersion this
  +:+ "/vector." +:+ format +:+ "?key=" +:+ apiKey
  +:+ "&layer=" +:+ integerToString (layerId this)
  +:+ "&x=" +:+ numberToString longitude +:+ "&y=" +:+ numberToString latitude
  +:+ "&max_results=" +:+ numberToString maxResult
  +:+ "&radius=" +:+ numberToString radius
  +:+ "&geometry=true&with_field_names=true".

Definition queryWfsSpatialApiJson (this : KoordinatesDataset) (apiKey : string)
    (latitude longitude maxResult radius : number) : IO any :=
  if decide (apiKind this ≠ WFS) then
    throw "This method is applied to Web Feature Service datasets only"
  else if negb (hasSpatialInformation this) then
    throw "This dataset does not have spatial information."
  else fetchJson (vectorEndpoint this "json" apiKey latitude longitude maxResult radius).

Definition queryWfsSpatialApiXml (this : KoordinatesDataset) (apiKey : string)
    (latitude longitude maxResult radius : number) : IO string :=
  if decide (apiKind this ≠ WFS) then
    throw "This method is applied to Web Feature Service datasets only"
  else if negb (hasSpatialInformation this) then
    throw "This dataset does not have spatial information."
  else fetchText (vectorEndpoint this "xml" apiKey latitude longitude maxResult radius).

Definition queryWmtsSpatialApiJson (this : KoordinatesDataset) (apiKey : string)
    (latitude longitude : number) : IO any :=
  if decide (apiKind this ≠ WMTS) then
    throw "This method is applied to Web Map Tile Service datasets only"
  else if negb (hasSpatialInformation this) then
    throw "This dataset does not have spatial information."
  else fetchJson
    (koordinatesHost this +:+ "/services/query/" +:+ apiVersion this
     +:+ "/raster.json?key=" +:+ apiKey +:+ "&layer=" +:+ integerToString (layerId this)
     +:+ "&x=" +:+ numberToString longitude +:+ "&y=" +:+ numberToString latitude).

(** [queryXyzTileServiceApi]; [zoomLevel] is 18 when it is left out. *)
Definition queryXyzTileServiceApi (this : KoordinatesDataset) (apiKey : string)
    (x y : Z) (zoomLevel : option Z) : IO buffer :=
  if decide (apiKind this ≠ WMTS) then
    throw "This method is applied to Web Map Tile Service datasets only"
  else fetchArrayBuffer
    ("https://tiles-cdn.koordinates.com/services;key=" +:+ apiKey
     +:+ "/tiles/v4/layer=" +:+ integerToString (layerId this) +:+ "/EPSG:3857/"
     +:+ integerToString (match zoomLevel with Some z => z | None => 18%Z end)
     +:+ "/" +:+ integerToString x +:+ "/" +:+ integerToString y +:+ ".png").

End Endpoints.

End Client.

(** ** Worlds and parameters of the examples *)

(** A machine that holds the dataset of the README, and one that does not
    while the remote location serves it. *)
Definition cachedWorld : World :=
  {| dirs := {[ "./datasets" ]};
     files := {[ "./datasets/nz-addresses.csv" := aliceBob ]};
     remote := ∅; trace := [] |}.


Definition wmtsDataset : KoordinatesDataset :=
  {| apiKind := WMTS; initialDataset := "nz-addresses.csv";
     initialDatasetLocation := "https://koordinates.example/initial";
     initialDatasetTs := "" |}.

(** A stream that breaks after the three lines of [aliceBob]. *)
Definition brokenAfterBob : list StreamEvent :=
  map line aliceBob ++ [error "EIO: i/o error, read"].

(** The parameters of the README, with a layer id, with a table id and
    with a table id of zero. *)
Definition layerParams : Client.Params.KoordinatesDatasetParams :=
  {| Client.Params.koordinatesHost := "https://data.linz.govt.nz";
     Client.Params.name := "NZ Addresses";
     Client.Params.layerId := Some 105689%Z;
     Client.Params.tableId := None;
     Client.Params.apiVersion := "v1";
     Client.Params.version := "v2.0.0";
     Client.Params.apiKind := WFS;
     Client.Params.initialDataset := "nz-addresses.csv";
     Client.Params.initialDatasetLocation := "https://koordinates.example/initial";
     Client.Params.initialDatasetTs := "2023-12-20T00:00:00Z";
     Client.Params.hasChangesets := None;
     Client.Params.hasSpatialInformation := None |}.

Definition tableParams (id : Z) : Client.Params.KoordinatesDatasetParams :=
  {| Client.Params.koordinatesHost := "https://data.linz.govt.nz";
     Client.Params.name := "NZ Addresses";
     Client.Params.layerId := None;
     Client.Params.tableId := Some id;
     Client.Params.apiVersion := "v1";
     Client.Params.version := "v2.0.0";
     Client.Params.apiKind := WFS;
     Client.Params.initialDataset := "nz-addresses.csv";
     Client.Params.initialDatasetLocation := "https://koordinates.example/initial";
     Client.Params.initialDatasetTs := "2023-12-20T00:00:00Z";
     Client.Params.hasChangesets := Some true;
     Client.Params.hasSpatialInformation := Some true |}.

Definition built (params : Client.Params.KoordinatesDatasetParams)
    : Client.KoordinatesDataset :=
  match Client.constructor params with
  | inr this => this
  | inl _ =>
      {| Client.koordinatesHost := ""; Client.name := ""; Client.layerId := 0;
         Client.tableId := 0; Client.apiVersion := ""; Client.version := "";
         Client.apiKind := WFS; Client.initialDataset := "";
         Client.initialDatasetLocation := ""; Client.initialDatasetTs := "";
         Client.hasChangesets := false; Client.hasSpatialInformation := false |}
  end.

(** * Properties *)

(** ** The window *)

Lemma keepWindow_beyond start batch i rows :
  (start + batch ≤ i)%Z → keepWindow start batch i rows = [].
Proof.
  revert i. induction rows as [|r rows IH]; intros i Hi; [done|].
  simpl. rewrite (bool_decide_eq_false_2 (i < start + batch)%Z) by lia.
  rewrite andb_false_r. apply IH. lia.
Qed.

Lemma keepWindow_app start batch i rows1 rows2 :
  keepWindow start batch i (rows1 ++ rows2)
  = keepWindow start batch i rows1
    ++ keepWindow start batch (i + Z.of_nat (length rows1)) rows2.
Proof.
  revert i. induction rows1 as [|r rows1 IH]; intros i; simpl.
  - by rewrite Z.add_0_r.
  - rewrite IH. replace (i + 1 + Z.of_nat (length rows1))%Z
      with (i + Z.pos (Pos.of_succ_nat (length rows1)))%Z by lia.
    by destruct (_ && _).
Qed.

Lemma keepWindow_inside start batch i rows :
  (start ≤ i)%Z →
  keepWindow start batch i rows = take (Z.to_nat (start + batch - i)) rows.
Proof.
  revert i. induction rows as [|r rows IH]; intros i Hi; simpl.
  - by rewrite take_nil.
  - rewrite bool_decide_eq_true_2 by done. simpl. case_bool_decide as Hlt.
    + rewrite IH by lia.
      replace (Z.to_nat (start + batch - i))
        with (S (Z.to_nat (start + batch - (i + 1)))) by lia.
      done.
    + rewrite keepWindow_beyond by lia.
      by replace (Z.to_nat (start + batch - i)) with 0%nat by lia.
Qed.

Lemma keepWindow_before start batch i rows :
  (0 ≤ i ≤ start)%Z →
  keepWindow start batch i rows
  = take (Z.to_nat batch) (drop (Z.to_nat (start - i)) rows).
Proof.
  revert i. induction rows as [|r rows IH]; intros i Hi; simpl.
  - by rewrite drop_nil, take_nil.
  - destruct (decide (i = start)) as [->|Hne].
    + pose proof (keepWindow_inside start batch start (r :: rows)) as H.
      simpl in H. rewrite H by lia.
      replace (Z.to_nat (start - start)) with 0%nat by lia. rewrite drop_0.
      by replace (start + batch - start)%Z with batch by lia.
    + rewrite (bool_decide_eq_false_2 (start ≤ i)%Z) by lia. simpl.
      rewrite IH by lia.
      replace (Z.to_nat (start - i)) with (S (Z.to_nat (start - (i + 1)))) by lia.
      done.
Qed.

Lemma keepWindow_take_drop start batch rows :
  (0 ≤ start)%Z →
  keepWindow start batch 0 rows = take (Z.to_nat batch) (drop (Z.to_nat start) rows).
Proof.
  intros H. rewrite keepWindow_before by lia. by rewrite Z.sub_0_r.
Qed.

(** ** The line handler *)

Section ReaderFacts.

Context {any : Type}.
Variable papa_parse : string -> Papa.ParseResult any.
Variables start batch : Z.

Implicit Types (st : ReaderState (any := any)) (row : string) (rows : list string).

Local Abbreviation handler := (onLine papa_parse start batch).
Local Abbreviation parseRow := (csvToJson papa_parse).

(** Case analysis on the branch the handler takes. *)
Local Ltac handler_cases st :=
  unfold onLine; destruct st as [rs h rc cl]; simpl in *;
  repeat case_match; simpl in *;
  repeat match goal with
    | H : _ && _ = true |- _ => apply andb_prop in H; destruct H
    | H : _ && _ = false |- _ => apply andb_false_iff in H
    | H : bool_decide _ = true |- _ => apply bool_decide_eq_true_1 in H
    | H : bool_decide _ = false |- _ => apply bool_decide_eq_false_1 in H
    end.

Lemma onLine_header st row :
  headers st = "" →
  handler st row
  = {| records := records st; headers := row;
       recordCount := recordCount st; closed := closed st |}.
Proof. intros H. unfold onLine. by rewrite decide_True. Qed.

Lemma onLine_blank st : headers st = "" → handler st "" = st.
Proof. intros H. rewrite onLine_header by done. destruct st; simpl in *; by subst. Qed.

Lemma onLine_data st row :
  headers st ≠ "" →
  headers (handler st row) = headers st
  ∧ recordCount (handler st row) = (recordCount st + 1)%Z
  ∧ records (handler st row)
    = records st ++ omap (parseRow (headers st))
                         (keepWindow start batch (recordCount st) [row]).
Proof.
  intros H. unfold onLine. destruct st as [rs h rc cl]; simpl in *.
  rewrite decide_False by done.
  destruct (bool_decide (start ≤ rc)%Z && bool_decide (rc < start + batch)%Z);
    simpl.
  - destruct (parseRow h row); simpl; by rewrite ?app_nil_r.
  - rewrite app_nil_r. by destruct (bool_decide (start + batch ≤ rc)%Z).
Qed.

Lemma onLine_closedLate st row :
  closedLate start batch st → closedLate start batch (handler st row).
Proof.
  unfold closedLate. intros Hst. handler_cases st; intros Hc;
    try (destruct (Hst Hc) as [Hh Hrc]); try done; split; try done; lia.
Qed.

Lemma onLine_closed st row :
  closed st = true → closedLate start batch st →
  closed (handler st row) = true
  ∧ records (handler st row) = records st
  ∧ headers (handler st row) = headers st.
Proof.
  intros Hc Hst. destruct (Hst Hc) as [Hh Hrc].
  handler_cases st; try done; lia.
Qed.

Lemma fold_closedLate rows st :
  closedLate start batch st →
  closedLate start batch (fold_left handler rows st).
Proof.
  revert st. induction rows as [|row rows IH]; intros st Hst; [done|].
  simpl. by apply IH, onLine_closedLate.
Qed.

(** Lines that arrive after [rl.close()] add nothing. *)
Lemma fold_closed rows st :
  closed st = true → closedLate start batch st →
  closed (fold_left handler rows st) = true
  ∧ records (fold_left handler rows st) = records st
  ∧ headers (fold_left handler rows st) = headers st.
Proof.
  revert st. induction rows as [|row rows IH]; intros st Hc Hst; [done|].
  simpl. destruct (onLine_closed st row Hc Hst) as (Hc' & Hr & Hh).
  destruct (IH _ Hc' (onLine_closedLate st row Hst)) as (? & -> & ->). done.
Qed.

Lemma feed_fold rows st :
  closedLate start batch st →
  records (feed papa_parse start batch st rows)
  = records (fold_left handler rows st)
  ∧ headers (feed papa_parse start batch st rows)
    = headers (fold_left handler rows st).
Proof.
  revert st. induction rows as [|row rows IH]; intros st Hst; [done|].
  simpl. pose proof (onLine_closedLate st row Hst) as Hst'.
  destruct (closed (handler st row)) eqn:Hc.
  - destruct (fold_closed rows _ Hc Hst') as (_ & -> & ->). done.
  - by apply IH.
Qed.

Lemma deliver_feed rows st :
  deliver papa_parse start batch st (map line rows)
  = Resolved (records (feed papa_parse start batch st rows)).
Proof.
  revert st. induction rows as [|row rows IH]; intros st; [done|].
  simpl. destruct (closed (handler st row)); [done|]. apply IH.
Qed.

Lemma deliverChunks_fold chunks st :
  closedLate start batch st →
  records (deliverChunks papa_parse start batch st chunks)
  = records (fold_left handler (concat chunks) st).
Proof.
  revert st. induction chunks as [|chunk chunks IH]; intros st Hst; [done|].
  simpl. rewrite fold_left_app.
  pose proof (fold_closedLate chunk st Hst) as Hst'.
  destruct (closed (fold_left handler chunk st)) eqn:Hc.
  - by destruct (fold_closed (concat chunks) _ Hc Hst') as (_ & -> & _).
  - by apply IH.
Qed.

Lemma initial_closedLate : closedLate start batch (initial (any := any)).
Proof. by intros ?. Qed.

(** The whole scan, once the header is known. *)
Lemma fold_data rows st :
  headers st ≠ "" →
  headers (fold_left handler rows st) = headers st
  ∧ recordCount (fold_left handler rows st)
    = (recordCount st + Z.of_nat (length rows))%Z
  ∧ records (fold_left handler rows st)
    = records st ++ omap (parseRow (headers st))
                         (keepWindow start batch (recordCount st) rows).
Proof.
  revert st. induction rows as [|row rows IH]; intros st Hh.
  - simpl. rewrite app_nil_r. repeat split; lia.
  - destruct (onLine_data st row Hh) as (Hh' & Hrc' & Hr').
    cbn [fold_left]. destruct (IH (handler st row)) as (IHh & IHrc & IHr);
      [by rewrite Hh'|].
    rewrite IHh, IHrc, IHr, Hh', Hrc', Hr'.
    split; [done|]. split; [simpl length; lia|].
    rewrite <- app_assoc, <- omap_app. f_equal. f_equal.
    change (row :: rows) with ([row] ++ rows).
    rewrite (keepWindow_app _ _ _ [row] rows). done.
Qed.

(** The whole scan from the start: the header is the first line that is
    not empty, and the lines after it are counted from zero. *)
Lemma fold_lines lines st :
  headers st = "" →
  headers (fold_left handler lines st) = capturedHeader lines
  ∧ recordCount (fold_left handler lines st)
    = (recordCount st + Z.of_nat (length (dataLines lines)))%Z
  ∧ records (fold_left handler lines st)
    = records st ++ omap (parseRow (capturedHeader lines))
                         (keepWindow start batch (recordCount st) (dataLines lines)).
Proof.
  revert st. induction lines as [|l lines IH]; intros st Hh.
  - simpl. rewrite app_nil_r, Hh. repeat split; lia.
  - cbn [fold_left capturedHeader dataLines]. destruct (decide (l = "")) as [->|Hl].
    + rewrite onLine_blank by done. by apply IH.
    + rewrite onLine_header by done.
      by apply (fold_data lines
        {| records := records st; headers := l;
           recordCount := recordCount st; closed := closed st |}).
Qed.

Lemma scanWholeFile_window lines :
  scanWholeFile papa_parse start batch lines
  = omap (parseRow (capturedHeader lines))
         (keepWindow start batch 0 (dataLines lines)).
Proof.
  unfold scanWholeFile. by destruct (fold_lines lines initial) as (_ & _ & ->).
Qed.

Lemma deliver_lines lines :
  deliver papa_parse start batch initial (map line lines)
  = Resolved (scanWholeFile papa_parse start batch lines).
Proof.
  rewrite deliver_feed.
  by destruct (feed_fold lines initial initial_closedLate) as [-> _].
Qed.

End ReaderFacts.

(** ** Lists of records and lines *)

Lemma length_omap_le {A B} (f : A → option B) (l : list A) :
  (length (omap f l) ≤ length l)%nat.
Proof.
  induction l as [|x l IH]; [done|]. unfold omap in *. simpl.
  destruct (f x); simpl; lia.
Qed.

Lemma length_omap_total {A B} (f : A → option B) (l : list A) :
  (∀ x, x ∈ l → is_Some (f x)) → length (omap f l) = length l.
Proof.
  induction l as [|x l IH]; intros Hall; [done|]. unfold omap in *. simpl.
  destruct (Hall x) as [y ->]; [by left|]. simpl. f_equal.
  apply IH. intros z Hz. apply Hall. by right.
Qed.

Lemma dataLines_length lines :
  (length (dataLines lines) ≤ pred (length lines))%nat.
Proof.
  induction lines as [|l lines IH]; [done|]. simpl.
  destruct (decide (l = "")); simpl; lia.
Qed.

Lemma capturedHeader_blank_prefix k h rest :
  h ≠ "" →
  capturedHeader (replicate k "" ++ h :: rest) = h
  ∧ dataLines (replicate k "" ++ h :: rest) = rest.
Proof.
  intros Hh. induction k as [|k IH]; simpl.
  - by destruct (decide (h = "")).
  - done.
Qed.

(** ** The batch reader on a file *)

Section ReaderClaims.

Context {any : Type}.
Variable papa_parse : string -> Papa.ParseResult any.
Variable createReadStream : string → ReadStream.
Variable filePath : string.
Variable lines : list string.
Hypothesis file_opens : createReadStream filePath = fileStream lines.

Local Abbreviation parseRow := (csvToJson papa_parse).
Local Abbreviation read := (readCSVInBatches papa_parse createReadStream filePath).

Lemma read_scan start batch :
  read start batch = Resolved (scanWholeFile papa_parse start batch lines).
Proof.
  unfold readCSVInBatches. rewrite file_opens. apply deliver_lines.
Qed.

Lemma read_window start batch :
  (0 ≤ start)%Z →
  read start batch
  = Resolved (omap (parseRow (capturedHeader lines))
                (take (Z.to_nat batch) (drop (Z.to_nat start) (dataLines lines)))).
Proof.
  intros H. rewrite read_scan, scanWholeFile_window.
  by rewrite keepWindow_take_drop.
Qed.

(** C4: stopping the line stream once the data-line index has reached
    start+batch does not change what is returned.  For every file and every
    valid (start, batch) the reader returns the records of the reader that
    scans the whole file; so does a reader that still receives the rest of
    the chunk in progress after it has asked to stop; and these records are
    the parsed lines of the window [start, start+batch). *)
Theorem early_stop_keeps_result start batch :
  validWindow start batch →
  read start batch = Resolved (scanWholeFile papa_parse start batch lines)
  ∧ (∀ chunks, concat chunks = lines →
       records (deliverChunks papa_parse start batch initial chunks)
       = scanWholeFile papa_parse start batch lines)
  ∧ scanWholeFile papa_parse start batch lines
    = omap (parseRow (capturedHeader lines))
        (take (Z.to_nat batch) (drop (Z.to_nat start) (dataLines lines))).
Proof.
  intros (Hs & Hb & _). split; [apply read_scan|]. split.
  - intros chunks <-. apply deliverChunks_fold, initial_closedLate.
  - rewrite scanWholeFile_window. by rewrite keepWindow_take_drop.
Qed.

(** C7: for every file and every start at or beyond the number of data
    lines the reader resolves with the empty sequence, it does not fail;
    in general the records returned are the parsed data lines of positions
    start to start+batch-1, in file order. *)
Theorem window_beyond_file_is_empty start batch :
  validWindow start batch →
  read start batch
  = Resolved (omap (parseRow (capturedHeader lines))
                (take (Z.to_nat batch) (drop (Z.to_nat start) (dataLines lines))))
  ∧ ((Z.of_nat (length (dataLines lines)) ≤ start)%Z →
       read start batch = Resolved [])
  ∧ ((Z.of_nat (length lines) - 1 ≤ start)%Z → read start batch = Resolved []).
Proof.
  intros (Hs & Hb & _). split; [by apply read_window|].
  assert (∀ n, (length (dataLines lines) ≤ n)%nat →
            take (Z.to_nat batch) (drop n (dataLines lines)) = []) as Hempty.
  { intros n Hn. rewrite drop_ge by done. apply take_nil. }
  pose proof (dataLines_length lines).
  split; intros Hle; rewrite read_window by done; rewrite Hempty; try done; lia.
Qed.

(** C1 (amended): for every file and every valid (start, batch) the
    sequence returned has length at most batch and at most
    min(batch, total_records - start) clamped at 0, where total_records is
    the number of lines after the header; the length equals that number
    when csvToJson returns a record for every line of the window. *)
Theorem batch_length start batch :
  validWindow start batch →
  let total := Z.of_nat (length (dataLines lines)) in
  let window := take (Z.to_nat batch) (drop (Z.to_nat start) (dataLines lines)) in
  ∃ rs, read start batch = Resolved rs
    ∧ (Z.of_nat (length rs) ≤ batch)%Z
    ∧ (Z.of_nat (length rs) ≤ Z.max 0 (Z.min batch (total - start)))%Z
    ∧ ((∀ row, row ∈ window → is_Some (parseRow (capturedHeader lines) row)) →
         Z.of_nat (length rs) = Z.max 0 (Z.min batch (total - start))).
Proof.
  intros (Hs & Hb & _) total window. eexists. split; [by apply read_window|].
  fold window.
  assert (Z.of_nat (length window) = Z.max 0 (Z.min batch (total - start))) as Hw.
  { unfold window, total. rewrite length_take, length_drop. lia. }
  pose proof (length_omap_le (parseRow (capturedHeader lines)) window).
  split; [lia|]. split; [lia|].
  intros Hall. rewrite length_omap_total by done. done.
Qed.

(** C3 (amended): the first line that is not empty is captured as the
    header (the first line of the file when that one is not empty).
    Neither it nor the empty lines before it are counted as records or
    emitted, for any (start, batch): the count runs over the lines after
    the header and the result is made of these lines only. *)
Theorem header_is_first_nonempty_line start batch k h rest :
  h ≠ "" →
  lines = replicate k "" ++ h :: rest →
  headers (feed papa_parse start batch initial lines) = h
  ∧ recordCount (fold_left (onLine papa_parse start batch) lines initial)
    = Z.of_nat (length rest)
  ∧ read start batch
    = Resolved (omap (parseRow h) (keepWindow start batch 0 rest)).
Proof.
  intros Hh Hlines.
  destruct (capturedHeader_blank_prefix k h rest Hh) as [Hhdr Hdata].
  rewrite <- Hlines in Hhdr, Hdata.
  destruct (feed_fold papa_parse start batch lines initial
              (initial_closedLate start batch)) as [_ ->].
  destruct (fold_lines papa_parse start batch lines initial eq_refl)
    as (-> & -> & _).
  rewrite read_scan, scanWholeFile_window, Hhdr, Hdata. simpl. done.
Qed.

End ReaderClaims.

(** ** Counting the records *)

Lemma countLines_lines count lines :
  countLines count (map line lines)
  = Resolved (if bool_decide (0 < count + Z.of_nat (length lines))%Z
              then count + Z.of_nat (length lines) - 1
              else count + Z.of_nat (length lines))%Z.
Proof.
  revert count. induction lines as [|l lines IH]; intros count; simpl.
  - by rewrite Z.add_0_r.
  - rewrite IH.
    by replace (count + 1 + Z.of_nat (length lines))%Z
      with (count + Z.pos (Pos.of_succ_nat (length lines)))%Z by lia.
Qed.

Lemma getRecordCount_lines createReadStream filePath lines :
  createReadStream filePath = fileStream lines →
  getRecordCount createReadStream filePath
  = Resolved (Z.of_nat (length (tail lines))).
Proof.
  intros Hopen. unfold getRecordCount. rewrite Hopen. unfold fileStream.
  rewrite countLines_lines, Z.add_0_l.
  destruct lines; [done|]. simpl length.
  rewrite bool_decide_eq_true_2 by lia. f_equal. lia.
Qed.

(** C2 (amended): for every file the count operation returns the number
    of lines minus 1 when the file is not empty, and 0 when the file is
    empty or holds a single line.  When the first line of the file is not
    empty, so that it is the header, the count is the number of data lines
    and does not include the header line; when k empty lines come before
    the header, the count is the number of data lines plus k. *)
Theorem record_count_drops_first_line createReadStream filePath lines :
  createReadStream filePath = fileStream lines →
  (lines ≠ [] →
     getRecordCount createReadStream filePath
     = Resolved (Z.of_nat (length lines) - 1)%Z)
  ∧ (lines = [] ∨ (∃ l, lines = [l]) →
       getRecordCount createReadStream filePath = Resolved 0%Z)
  ∧ (∀ h rest, h ≠ "" → lines = h :: rest →
       capturedHeader lines = h
       ∧ getRecordCount createReadStream filePath
         = Resolved (Z.of_nat (length (dataLines lines))))
  ∧ (∀ k h rest, h ≠ "" → lines = replicate k "" ++ h :: rest →
       getRecordCount createReadStream filePath
       = Resolved (Z.of_nat (length (dataLines lines)) + Z.of_nat k)%Z).
Proof.
  intros Hopen. rewrite (getRecordCount_lines _ _ lines Hopen).
  split; [|split; [|split]].
  - intros Hne. destruct lines; [done|]. simpl. f_equal. lia.
  - by intros [->|[l ->]].
  - intros h rest Hh ->. simpl. by rewrite !decide_False by done.
  - intros k h rest Hh ->.
    destruct (capturedHeader_blank_prefix k h rest Hh) as [_ ->].
    f_equal. destruct k as [|k]; simpl.
    + lia.
    + rewrite length_app, length_replicate. simpl. lia.
Qed.

(** ** The dataset methods *)

Section DatasetClaims.

Context {any : Type}.
Variable papa_parse : string -> Papa.ParseResult any.

(** C6: for every batch with batch <= 0 or batch > 100000 and every
    start, getInitialDatasetInBatch rejects the call before any file is
    touched and before any download: the world, with its record of the
    actions performed, is the one the call started in. *)
Theorem invalid_batch_rejected_before_io this start batch w :
  (batch ≤ 0 ∨ 100000 < batch)%Z →
  ∃ message,
    getInitialDatasetInBatch papa_parse this start batch w = (Rejected message, w)
    ∧ (apiKind this = WFS → message = "Batch size must be between 1 and 100000").
Proof.
  intros Hbatch. unfold getInitialDatasetInBatch.
  destruct (decide (apiKind this ≠ WFS)) as [Hkind|Hkind].
  - eexists. split; [done|]. intros Heq. by destruct Hkind.
  - assert (bool_decide (batch ≤ 0)%Z || bool_decide (batch > 100000)%Z = true)
      as ->.
    { apply orb_true_iff. rewrite !bool_decide_eq_true. lia. }
    eexists. split; done.
Qed.

Lemma download_outcome this w p w' :
  downloadInitialDatasetFromS3 this w = (p, w') →
  p = Resolved tt ∨ p = Rejected "fetch failed".
Proof.
  unfold downloadInitialDatasetFromS3, unlessExists, existsSync, mkdir, fetch,
    writeFile, waitForFile, perform, inspect, change, await.
  unfold mbind, IO_bind, mret, IO_ret. simpl.
  intros H. repeat case_match; simplify_eq; auto; by destruct u.
Qed.

Lemma read_world_outcome filePath start batch w p w' :
  readCSVInBatchesIO papa_parse filePath start batch w = (p, w') →
  ∀ message, p ≠ Rejected message.
Proof.
  unfold readCSVInBatchesIO, perform, change, await.
  unfold mbind, IO_bind. simpl. intros H message. simplify_eq.
  unfold readCSVInBatches, createReadStream. simpl.
  destruct (files w !! filePath) as [lines|]; simpl.
  - unfold fileStream. by rewrite deliver_lines.
  - done.
Qed.

(** C10 (amended): when the apiKind is WFS and batch is valid, a dataset
    whose initialDataset is the empty string while its initialDatasetTs is
    not makes getInitialDatasetInBatch log one message and resolve with
    undefined, without throwing and without reading a file; the timestamp
    error is thrown exactly when initialDatasetTs is empty, whatever
    initialDataset is. *)
Theorem empty_dataset_name_returns_nothing this start batch w :
  apiKind this = WFS →
  (0 < batch ≤ 100000)%Z →
  (initialDataset this = "" → initialDatasetTs this ≠ "" →
     getInitialDatasetInBatch papa_parse this start batch w
     = (Resolved None,
        {| dirs := dirs w; files := files w; remote := remote w;
           trace := trace w
             ++ [ConsoleLog "loading initial data from Koordinate website"] |}))
  ∧ (initialDatasetTs this = "" →
       getInitialDatasetInBatch papa_parse this start batch w
       = (Rejected "Initial dataset timestamp cannot be empty", w))
  ∧ (∀ w', getInitialDatasetInBatch papa_parse this start batch w
           = (Rejected "Initial dataset timestamp cannot be empty", w') →
           initialDatasetTs this = "").
Proof.
  intros Hkind Hbatch. unfold getInitialDatasetInBatch.
  rewrite decide_False by (intros Hne; by apply Hne).
  assert (bool_decide (batch ≤ 0)%Z || bool_decide (batch > 100000)%Z = false)
    as ->.
  { apply orb_false_iff. rewrite !bool_decide_eq_false. lia. }
  split; [|split].
  - intros Hds Hts.
    rewrite (bool_decide_eq_false_2 (initialDataset this ≠ "")) by (by intros ?).
    rewrite (bool_decide_eq_true_2 (initialDatasetTs this ≠ "")) by done.
    done.
  - intros Hts.
    rewrite (bool_decide_eq_false_2 (initialDatasetTs this ≠ "")) by (by intros ?).
    by rewrite andb_false_r.
  - intros w'.
    destruct (bool_decide (initialDatasetTs this ≠ "")) eqn:Hts;
      [|intros _; apply bool_decide_eq_false_1 in Hts;
        by destruct (decide (initialDatasetTs this = ""))].
    destruct (bool_decide (initialDataset this ≠ "")); simpl; [|done].
    unfold mbind, IO_bind.
    destruct (downloadInitialDatasetFromS3 this w) as [p w1] eqn:Hdl.
    destruct (download_outcome _ _ _ _ Hdl) as [-> | ->]; [|done].
    destruct (readCSVInBatchesIO papa_parse (datasetPath this) start batch w1)
      as [q w2] eqn:Hrd.
    pose proof (read_world_outcome _ _ _ _ _ _ Hrd) as Hq.
    destruct q; try done. intros Heq. simplify_eq. by destruct (Hq _ eq_refl).
Qed.

End DatasetClaims.


(** ** The parser model *)

Module PapaFacts.
Import Papa.

Lemma append_cons c a b : String c a +:+ b = String c (a +:+ b).
Proof. reflexivity. Qed.

Lemma append_nil_r s : s +:+ "" = s.
Proof. induction s as [|c s IH]; [done|]. by rewrite append_cons, IH. Qed.

Lemma scan_app s a b : scan s (a +:+ b) = scan (scan s a) b.
Proof.
  revert s. induction a as [|c a IH]; intros s; [done|].
  rewrite append_cons. simpl. apply IH.
Qed.

Lemma append_snoc f c s : (f +:+ String c "") +:+ s = f +:+ String c s.
Proof.
  induction f as [|c' f IH]; [done|]. by rewrite !append_cons, IH.
Qed.

Lemma mentions_cons c c' s :
  mentions c (String c' s) = false → c' ≠ c ∧ mentions c s = false.
Proof.
  simpl. intros H. apply orb_false_iff in H as [H1 H2].
  by apply bool_decide_eq_false_1 in H1.
Qed.

Lemma step_rows s c : c ≠ newline → rows (step s c) = rows s.
Proof.
  intros Hc. unfold step. destruct s as [[] f r rs]; simpl;
    repeat case_decide; simpl; done.
Qed.

Lemma scan_line_rows s l : oneLine l → rows (scan s l) = rows s.
Proof.
  unfold oneLine. revert s. induction l as [|c l IH]; intros s Hl; [done|].
  apply mentions_cons in Hl as [Hc Hl]. simpl.
  rewrite IH by done. by apply step_rows.
Qed.

Lemma step_prependRows before s c :
  step (prependRows before s) c = prependRows before (step s c).
Proof.
  unfold step, prependRows. destruct s as [[] f r rs]; simpl;
    repeat case_decide; simpl; by rewrite ?app_assoc.
Qed.

Lemma scan_prependRows before s l :
  scan (prependRows before s) l = prependRows before (scan s l).
Proof.
  revert s. induction l as [|c l IH]; intros s; [done|].
  simpl. by rewrite step_prependRows, IH.
Qed.

(** The line feed after a header that leaves no quote open ends the
    first row. *)
Lemma header_row h :
  oneLine h → closesQuotes h →
  step (scan start h) newline = prependRows [fieldsOf h] start.
Proof.
  intros Hline Hclosed. unfold closesQuotes in Hclosed.
  pose proof (scan_line_rows start h Hline) as Hrows.
  unfold fieldsOf, step, prependRows.
  destruct (scan start h) as [[] f r rs]; simpl in *; subst; done.
Qed.

Lemma parseRows_two_lines h r :
  oneLine h → oneLine r → closesQuotes h →
  parseRows (h +:+ String newline "" +:+ r) = [fieldsOf h; fieldsOf r].
Proof.
  intros Hh Hr Hclosed. unfold parseRows.
  rewrite decide_False by (by destruct h).
  rewrite scan_app, append_cons. change ("" +:+ r) with r.
  simpl scan. rewrite header_row by done.
  rewrite scan_prependRows. unfold finish, prependRows, fieldsOf. simpl.
  by rewrite (scan_line_rows start r Hr).
Qed.

Lemma scan_inside_quotes f r rs s :
  mentions quoteChar s = false →
  scan {| mode := Quoted; field := f; row := r; rows := rs |} s
  = {| mode := Quoted; field := f +:+ s; row := r; rows := rs |}.
Proof.
  revert f. induction s as [|c s IH]; intros f Hs; simpl.
  - by rewrite append_nil_r.
  - apply mentions_cons in Hs as [Hc Hs]. unfold step. simpl.
    rewrite decide_False by done. unfold put. simpl.
    rewrite IH by done. by rewrite append_snoc.
Qed.

(** A quoted field after a first field is one field, whatever it holds
    apart from the quote character. *)
Lemma quoted_second_field s :
  mentions quoteChar s = false → fieldsOf ("1," +:+ quoted s) = ["1"; s].
Proof.
  intros Hs. unfold fieldsOf, quoted.
  rewrite !scan_app. simpl.
  change (step (step (step start "1") ",") quoteChar)
    with {| mode := Quoted; field := ""; row := ["1"]; rows := [] |}.
  rewrite scan_inside_quotes by done. done.
Qed.

Lemma setField_other obj k v f : f ≠ k → setField obj k v !! f = obj !! f.
Proof.
  intros Hne. unfold setField. repeat case_match; by rewrite lookup_insert_ne.
Qed.

Lemma setField_plain obj k v :
  k ≠ "__parsed_extra" → setField obj k v !! k = Some (JStr v).
Proof.
  intros Hne. unfold setField. rewrite decide_False by done.
  apply lookup_insert_eq.
Qed.

Lemma fillRow_other fields values obj f :
  f ∉ fields → f ≠ "__parsed_extra" →
  fillRow fields values obj !! f = obj !! f.
Proof.
  revert fields obj. induction values as [|v values IH]; intros fields obj Hf He;
    [done|].
  destruct fields as [|f0 fields]; simpl.
  - rewrite IH by done. by apply setField_other.
  - apply not_elem_of_cons in Hf as [Hne Hf].
    rewrite IH by done. by apply setField_other.
Qed.

Lemma fillRow_lookup fields values obj i f :
  NoDup fields → "__parsed_extra" ∉ fields → fields !! i = Some f →
  fillRow fields values obj !! f
  = match values !! i with Some v => Some (JStr v) | None => obj !! f end.
Proof.
  revert fields i obj. induction values as [|v values IH];
    intros fields i obj Hnd He Hi; [done|].
  destruct fields as [|f0 fields]; [done|].
  apply NoDup_cons in Hnd as [Hf0 Hnd].
  apply not_elem_of_cons in He as [He0 He].
  destruct i as [|i]; simpl in *.
  - simplify_eq. rewrite fillRow_other by done. by apply setField_plain.
  - rewrite (IH fields i) by done.
    rewrite setField_other; [done|].
    intros ->. apply Hf0. by eapply list_elem_of_lookup_2.
Qed.

(** Header fields and values are paired by position. *)
Lemma toObject_lookup fields values i f :
  NoDup fields → "__parsed_extra" ∉ fields → fields !! i = Some f →
  toObject fields values !! f = JStr <$> values !! i.
Proof.
  intros Hnd He Hi. unfold toObject. rewrite (fillRow_lookup _ _ _ i) by done.
  by destruct (values !! i).
Qed.

Lemma csvToJson_pairs h r :
  oneLine h → oneLine r → closesQuotes h →
  csvToJson parse h r = Some (toObject (fieldsOf h) (fieldsOf r)).
Proof.
  intros Hh Hr Hclosed. unfold csvToJson, parse.
  by rewrite parseRows_two_lines.
Qed.

End PapaFacts.


(** ** Scenarios *)

(** C8: for the file with header line id,name and the two data lines
    1,Alice and 2,Bob, the reader called with (0, 1) returns exactly the
    record of Alice, called with (1, 10) it returns exactly the record of
    Bob, and the count operation returns 2. *)
Theorem alice_bob_scenario :
  readCSVInBatches Papa.parse (onDisk aliceBob) "./datasets/people.csv" 0 1
  = Resolved [record2 "id" "1" "name" "Alice"]
  ∧ readCSVInBatches Papa.parse (onDisk aliceBob) "./datasets/people.csv" 1 10
    = Resolved [record2 "id" "2" "name" "Bob"]
  ∧ getRecordCount (onDisk aliceBob) "./datasets/people.csv" = Resolved 2%Z.
Proof. repeat split; vm_compute; reflexivity. Qed.

(** C9: a quoted field that holds the delimiter is parsed as a single
    field.  The file with header id,note and a data line made of 1, a
    comma and the quoted text a,b yields the record with id 1 and note
    a,b; the quoted field is one field whatever text without a quote
    character it holds; and in general csvToJson pairs the fields of the
    header line with the fields of the data line by position, quoted
    fields honoured. *)
Theorem quoted_field_is_one_field :
  readCSVInBatches Papa.parse (onDisk quotedNote) "./datasets/notes.csv" 0 1
  = Resolved [record2 "id" "1" "note" "a,b"]
  ∧ (∀ s, Papa.mentions Papa.quoteChar s = false →
       Papa.fieldsOf ("1," +:+ Papa.quoted s) = ["1"; s])
  ∧ (∀ h r, Papa.oneLine h → Papa.oneLine r → Papa.closesQuotes h →
       csvToJson Papa.parse h r
       = Some (Papa.toObject (Papa.fieldsOf h) (Papa.fieldsOf r)))
  ∧ (∀ fields values i f,
       NoDup fields → "__parsed_extra" ∉ fields → fields !! i = Some f →
       Papa.toObject fields values !! f = Papa.JStr <$> values !! i).
Proof.
  split; [vm_compute; reflexivity|]. split; [apply PapaFacts.quoted_second_field|].
  split; [apply PapaFacts.csvToJson_pairs|apply PapaFacts.toObject_lookup].
Qed.

Lemma quoted_field_is_one_field_witness :
  csvToJson Papa.parse "id,note" ("1," +:+ Papa.quoted "a,b")
  = Some (Papa.toObject ["id"; "note"] ["1"; "a,b"]).
Proof.
  destruct quoted_field_is_one_field as (_ & Hquoted & Hpairs & _).
  rewrite <- (Hquoted "a,b" eq_refl).
  apply (Hpairs "id,note" ("1," +:+ Papa.quoted "a,b")).
  - reflexivity.
  - reflexivity.
  - unfold Papa.closesQuotes. vm_compute. discriminate.
Defined.

(** C5: an ['error'] event of the stream, whether the file cannot be
    opened or the read breaks after some lines, finds no listener: the
    promise of readCSVInBatches and of getRecordCount is neither rejected
    nor resolved.  Only what createReadStream throws at once is turned
    into a rejection that names the file path. *)
Theorem stream_error_is_not_rejected :
  readCSVInBatches Papa.parse (createReadStream emptyWorld)
    "./datasets/nz-addresses.csv" 0 10
  = Unsettled "ENOENT: no such file or directory, open ./datasets/nz-addresses.csv"
  ∧ getRecordCount (createReadStream emptyWorld) "./datasets/nz-addresses.csv"
    = Unsettled "ENOENT: no such file or directory, open ./datasets/nz-addresses.csv"
  ∧ readCSVInBatches Papa.parse (fun _ => emits brokenStream)
      "./datasets/nz-addresses.csv" 0 10
    = Unsettled "EIO: i/o error, read"
  ∧ getRecordCount (fun _ => emits brokenStream) "./datasets/nz-addresses.csv"
    = Unsettled "EIO: i/o error, read"
  ∧ readCSVInBatches Papa.parse (fun _ => throws "ERR_INVALID_ARG_VALUE")
      "./datasets/nz-addresses.csv" 0 10
    = Rejected "Failed reading file ./datasets/nz-addresses.csv".
Proof. repeat split; vm_compute; reflexivity. Qed.

(** ** Where the specification and the code part *)

(** C1, as stated, fails: a header line that opens a quoted field and
    does not close it takes the data line into the header, csvToJson
    returns undefined and the record is skipped.  The same happens to a
    header whose quoted field spans two lines. *)
Lemma batch_length_counterexample :
  readCSVInBatches Papa.parse (onDisk openQuoteHeader) "./datasets/open.csv" 0 1
  = Resolved []
  ∧ Z.max 0 (Z.min 1 (Z.of_nat (length (dataLines openQuoteHeader)) - 0)) = 1%Z
  ∧ readCSVInBatches Papa.parse (onDisk twoLineHeader) "./datasets/two.csv" 0 10
    = Resolved []
  ∧ Z.max 0 (Z.min 10 (Z.of_nat (length (dataLines twoLineHeader)) - 0)) = 2%Z.
Proof. repeat split; vm_compute; reflexivity. Qed.

(** C3, as stated, fails: when the first line of the file is empty the
    header the reader holds is the second line, which is neither counted
    nor emitted. *)
Lemma first_line_header_counterexample :
  head blankFirst = Some ""
  ∧ headers (feed Papa.parse 0 10 initial blankFirst) = "id,name"
  ∧ headers (feed Papa.parse 0 10 initial blankFirst) ≠ ""
  ∧ readCSVInBatches Papa.parse (onDisk blankFirst) "./datasets/blank.csv" 0 10
    = Resolved [record2 "id" "1" "name" "Alice"].
Proof. repeat split; try (vm_compute; reflexivity). vm_compute. discriminate. Qed.

(** C2, as stated, fails on a file that starts with an empty line: the
    count is 1 for a file that holds a header and no data line, and 2 for a
    file with one data line, so it includes the header line. *)
Lemma record_count_counterexample :
  capturedHeader blankThenHeader = "id,name"
  ∧ dataLines blankThenHeader = []
  ∧ getRecordCount (onDisk blankThenHeader) "./datasets/blank.csv" = Resolved 1%Z
  ∧ capturedHeader blankFirst = "id,name"
  ∧ dataLines blankFirst = ["1,Alice"]
  ∧ getRecordCount (onDisk blankFirst) "./datasets/blank.csv" = Resolved 2%Z.
Proof. repeat split; vm_compute; reflexivity. Qed.

(** C10, as stated, fails: the timestamp error is also thrown for a
    dataset that names a file and has no timestamp. *)
Lemma timestamp_error_counterexample :
  initialDataset noTimestamp ≠ ""
  ∧ getInitialDatasetInBatch Papa.parse noTimestamp 0 10 emptyWorld
    = (Rejected "Initial dataset timestamp cannot be empty", emptyWorld).
Proof. split; [vm_compute; discriminate|vm_compute; reflexivity]. Qed.

(** ** The theorems at work *)

Lemma early_stop_keeps_result_witness :
  readCSVInBatches Papa.parse (onDisk aliceBob) "./datasets/people.csv" 0 1
  = Resolved (scanWholeFile Papa.parse 0 1 aliceBob)
  ∧ records (deliverChunks Papa.parse 0 1 initial
               [["id,name"; "1,Alice"; "2,Bob"]])
    = scanWholeFile Papa.parse 0 1 aliceBob.
Proof.
  destruct (early_stop_keeps_result Papa.parse (onDisk aliceBob)
              "./datasets/people.csv" aliceBob eq_refl 0 1) as (Hread & Hchunks & _).
  - unfold validWindow. lia.
  - split; [exact Hread|]. apply Hchunks. reflexivity.
Defined.

Lemma window_beyond_file_is_empty_witness :
  readCSVInBatches Papa.parse (onDisk aliceBob) "./datasets/people.csv" 2 10
  = Resolved [].
Proof.
  destruct (window_beyond_file_is_empty Papa.parse (onDisk aliceBob)
              "./datasets/people.csv" aliceBob eq_refl 2 10) as (_ & Hempty & _).
  - unfold validWindow. lia.
  - apply Hempty. simpl. lia.
Defined.

Lemma batch_length_witness :
  ∃ rs,
    readCSVInBatches Papa.parse (onDisk aliceBob) "./datasets/people.csv" 1 10
    = Resolved rs
    ∧ Z.of_nat (length rs) = 1%Z.
Proof.
  destruct (batch_length Papa.parse (onDisk aliceBob)
              "./datasets/people.csv" aliceBob eq_refl 1 10)
    as (rs & Hread & _ & _ & Hlen).
  - unfold validWindow. lia.
  - exists rs. split; [exact Hread|]. rewrite Hlen; [reflexivity|].
    intros row Hrow. simpl in Hrow.
    apply list_elem_of_singleton in Hrow as ->. vm_compute. eauto.
Defined.

Lemma header_is_first_nonempty_line_witness :
  headers (feed Papa.parse 0 10 initial blankFirst) = "id,name"
  ∧ recordCount (fold_left (onLine Papa.parse 0 10) blankFirst initial) = 1%Z
  ∧ readCSVInBatches Papa.parse (onDisk blankFirst) "./datasets/blank.csv" 0 10
    = Resolved (omap (csvToJson Papa.parse "id,name")
                  (keepWindow 0 10 0 ["1,Alice"])).
Proof.
  apply (header_is_first_nonempty_line Papa.parse (onDisk blankFirst)
           "./datasets/blank.csv" blankFirst eq_refl 0 10 1 "id,name" ["1,Alice"]).
  - discriminate.
  - reflexivity.
Defined.

Lemma record_count_drops_first_line_witness :
  capturedHeader aliceBob = "id,name"
  ∧ getRecordCount (onDisk aliceBob) "./datasets/people.csv"
    = Resolved (Z.of_nat (length (dataLines aliceBob))).
Proof.
  destruct (record_count_drops_first_line (onDisk aliceBob)
              "./datasets/people.csv" aliceBob eq_refl) as (_ & _ & Hfirst & _).
  apply (Hfirst "id,name" ["1,Alice"; "2,Bob"]); [discriminate|reflexivity].
Defined.

Lemma invalid_batch_rejected_before_io_witness :
  ∃ message,
    getInitialDatasetInBatch Papa.parse nzAddresses 0 100001 emptyWorld
    = (Rejected message, emptyWorld)
    ∧ (apiKind nzAddresses = WFS →
       message = "Batch size must be between 1 and 100000").
Proof.
  apply (invalid_batch_rejected_before_io Papa.parse nzAddresses 0 100001 emptyWorld).
  right. lia.
Defined.

Lemma empty_dataset_name_returns_nothing_witness :
  getInitialDatasetInBatch Papa.parse noFileName 0 10 emptyWorld
  = (Resolved None,
     {| dirs := ∅; files := ∅; remote := ∅;
        trace := [ConsoleLog "loading initial data from Koordinate website"] |}).
Proof.
  destruct (empty_dataset_name_returns_nothing Papa.parse noFileName 0 10
              emptyWorld eq_refl) as (Hlog & _ & _).
  - lia.
  - apply Hlog; [reflexivity|discriminate].
Defined.

(** * Further properties of the code *)

(** ** The reader, line by line *)

Section ReaderSteps.

Context {any : Type}.
Variable papa_parse : string -> Papa.ParseResult any.
Variables start batch : Z.

Implicit Types (st : ReaderState (any := any)) (row : string) (rows : list string).

Local Abbreviation handler := (onLine papa_parse start batch).
Local Abbreviation reader := (feed papa_parse start batch).

Lemma keepWindow_length i rows :
  (length (keepWindow start batch i rows) ≤ length rows)%nat.
Proof.
  revert i. induction rows as [|r rows IH]; intros i; [done|]. simpl.
  specialize (IH (i + 1)%Z). destruct (_ && _); simpl; lia.
Qed.

Lemma onLine_data_closed st row :
  headers st ≠ "" →
  closed (handler st row)
  = closed st || bool_decide (start + batch ≤ recordCount st)%Z.
Proof.
  intros H. unfold onLine. destruct st as [rs h rc cl]; simpl in *.
  rewrite decide_False by done.
  destruct (bool_decide (start ≤ rc)%Z) eqn:H1,
    (bool_decide (rc < start + batch)%Z) eqn:H2; simpl.
  - apply bool_decide_eq_true_1 in H2.
    rewrite (bool_decide_eq_false_2 (start + batch ≤ rc)%Z) by lia.
    rewrite orb_false_r. by destruct (csvToJson papa_parse h row).
  - destruct (bool_decide (start + batch ≤ rc)%Z); simpl;
      by rewrite ?orb_true_r, ?orb_false_r.
  - destruct (bool_decide (start + batch ≤ rc)%Z); simpl;
      by rewrite ?orb_true_r, ?orb_false_r.
  - destruct (bool_decide (start + batch ≤ rc)%Z); simpl;
      by rewrite ?orb_true_r, ?orb_false_r.
Qed.

(** After the header the reader counts the lines it is handed; when it
    calls [rl.close()], on the first line past the window, the count is at
    the end of the window. *)
Lemma feed_data_count rows st :
  headers st ≠ "" → closed st = false → (recordCount st ≤ start + batch)%Z →
  recordCount (reader st rows)
  = Z.min (recordCount st + Z.of_nat (length rows)) (start + batch)
  ∧ closed (reader st rows)
    = bool_decide (start + batch < recordCount st + Z.of_nat (length rows))%Z.
Proof.
  revert st. induction rows as [|row rows IH]; intros st Hh Hc Hrc.
  - simpl. rewrite Hc, Z.add_0_r. split; [lia|].
    by rewrite bool_decide_eq_false_2 by lia.
  - cbn [feed]. destruct (onLine_data papa_parse start batch st row Hh)
      as (Hh' & Hrc' & _).
    pose proof (onLine_data_closed st row Hh) as Hc'. rewrite Hc in Hc'.
    simpl in Hc'. rewrite Hc'. case_bool_decide as Hclose.
    + cbn [atClose recordCount closed]. rewrite Hc'. simpl length.
      split; [lia|]. by rewrite !bool_decide_eq_true_2 by lia.
    + destruct (IH (handler st row)) as [-> ->];
        [by rewrite Hh'|done|lia|].
      rewrite Hrc'. simpl length. split; [lia|].
      apply bool_decide_ext. lia.
Qed.

Lemma feed_lines_count lines st :
  headers st = "" → closed st = false → recordCount st = 0%Z →
  (0 ≤ start + batch)%Z →
  recordCount (reader st lines)
  = Z.min (Z.of_nat (length (dataLines lines))) (start + batch)
  ∧ closed (reader st lines)
    = bool_decide (start + batch < Z.of_nat (length (dataLines lines)))%Z.
Proof.
  revert st. induction lines as [|l lines IH]; intros st Hh Hc Hrc Hw.
  - simpl. rewrite Hc, Hrc. split; [lia|].
    by rewrite bool_decide_eq_false_2 by lia.
  - cbn [feed dataLines]. destruct (decide (l = "")) as [->|Hl].
    + rewrite onLine_blank by done. rewrite Hc. by apply IH.
    + rewrite onLine_header by done.
      destruct st as [rs h rc cl]; simpl in *; subst.
      destruct (feed_data_count lines
        {| records := rs; headers := l; recordCount := 0; closed := false |})
        as [-> ->]; simpl; [done|done|lia|].
      by rewrite !Z.add_0_l.
Qed.

(** What the interface delivers after some lines, when these lines have
    not made the reader stop. *)
Lemma deliver_app_lines rows st tail :
  closed st = false →
  deliver papa_parse start batch st (map line rows ++ tail)
  = if closed (reader st rows) then Resolved (records (reader st rows))
    else deliver papa_parse start batch (reader st rows) tail.
Proof.
  revert st. induction rows as [|row rows IH]; intros st Hc.
  - simpl. by rewrite Hc.
  - simpl. destruct (closed (handler st row)) eqn:Hc'.
    + cbn [atClose closed records]. by rewrite Hc'.
    + by apply IH.
Qed.

End ReaderSteps.

(** ** The reader on a whole file *)

Section ReaderOnFile.

Context {any : Type}.
Variable papa_parse : string -> Papa.ParseResult any.
Variable createReadStream : string → ReadStream.
Variable filePath : string.
Variable lines : list string.
Hypothesis file_opens : createReadStream filePath = fileStream lines.

Local Abbreviation parseRow := (csvToJson papa_parse).
Local Abbreviation read := (readCSVInBatches papa_parse createReadStream filePath).

(** X1: consecutive batches tile the file.  The batch of size b1 at start
    followed by the batch of size b2 at start+b1 is the batch of size
    b1+b2 at start: paging loses no record and repeats none. *)
Theorem consecutive_batches_concatenate start b1 b2 :
  (0 ≤ start)%Z → (0 ≤ b1)%Z → (0 ≤ b2)%Z →
  ∃ first second,
    read start b1 = Resolved first
    ∧ read (start + b1) b2 = Resolved second
    ∧ read start (b1 + b2) = Resolved (first ++ second).
Proof.
  intros Hs H1 H2. do 2 eexists.
  split; [by apply read_window|]. split; [apply read_window; [done|lia]|].
  rewrite (read_window papa_parse createReadStream filePath lines file_opens)
    by done.
  f_equal. rewrite <- omap_app. f_equal.
  rewrite !Z2Nat.inj_add by done.
  by rewrite <- drop_drop, take_take_drop.
Qed.

(** X2: the reader stops on the first data line past the window.  For
    a valid window the handler calls rl.close() exactly when the file holds
    more than start+batch data lines, and when the 'close' handler resolves
    the promise, inside rl.close() or at the end of the input, the counter
    stands at min(number of data lines, start+batch): the data lines up to the
    end of the window have been counted and none beyond. *)
Theorem close_handler_sees_window_end start batch :
  validWindow start batch →
  closed (feed papa_parse start batch initial lines)
  = bool_decide (start + batch < Z.of_nat (length (dataLines lines)))%Z
  ∧ recordCount (feed papa_parse start batch initial lines)
    = Z.min (Z.of_nat (length (dataLines lines))) (start + batch).
Proof.
  intros (Hs & Hb & _).
  destruct (feed_lines_count papa_parse start batch lines initial)
    as [-> ->]; try done. lia.
Qed.

(** X3: a batch never holds more records than the count operation
    reports, for any start and batch. *)
Theorem batch_within_record_count start batch :
  ∃ rs n,
    read start batch = Resolved rs
    ∧ getRecordCount createReadStream filePath = Resolved n
    ∧ (Z.of_nat (length rs) ≤ n)%Z.
Proof.
  do 2 eexists. split; [by apply read_scan|].
  split; [by apply getRecordCount_lines|].
  rewrite scanWholeFile_window.
  pose proof (length_omap_le (parseRow (capturedHeader lines))
                (keepWindow start batch 0 (dataLines lines))).
  pose proof (keepWindow_length start batch 0 (dataLines lines)).
  pose proof (dataLines_length lines).
  destruct lines; simpl in *; lia.
Qed.

(** X4: a start below zero is not refused; the part of the window below
    zero is lost.  With start <= 0 the reader returns the first
    start+batch data lines only (none when start+batch <= 0). *)
Theorem negative_start_clips_window start batch :
  (start ≤ 0)%Z →
  read start batch
  = Resolved (omap (parseRow (capturedHeader lines))
                (take (Z.to_nat (start + batch)) (dataLines lines))).
Proof.
  intros Hs.
  rewrite (read_scan papa_parse createReadStream filePath lines file_opens).
  rewrite scanWholeFile_window.
  rewrite keepWindow_inside by done. by rewrite Z.sub_0_r.
Qed.

End ReaderOnFile.

(** ** Streams that fail *)

Lemma countLines_fault count lines err later :
  countLines count (map line lines ++ error err :: later) = Unsettled err.
Proof.
  revert count. induction lines as [|l lines IH]; intros count; [done|].
  simpl. apply IH.
Qed.

Section FailingStreams.

Context {any : Type}.
Variable papa_parse : string -> Papa.ParseResult any.
Variable createReadStream : string → ReadStream.
Variable filePath : string.
Variables (lines : list string) (err : string) (later : list StreamEvent).
Hypothesis stream_fails :
  createReadStream filePath = emits (map line lines ++ error err :: later).

(** X5: a fault of the stream is only felt while the reader still reads.
    When the lines delivered before the fault hold more than start+batch
    data lines the reader has stopped and the promise resolves with the
    whole window; otherwise the promise is left unsettled, it never
    resolves with the records gathered so far. *)
Theorem fault_after_window_is_not_seen start batch :
  validWindow start batch →
  ((start + batch < Z.of_nat (length (dataLines lines)))%Z →
     readCSVInBatches papa_parse createReadStream filePath start batch
     = Resolved (omap (csvToJson papa_parse (capturedHeader lines))
                   (take (Z.to_nat batch)
                      (drop (Z.to_nat start) (dataLines lines)))))
  ∧ ((Z.of_nat (length (dataLines lines)) ≤ start + batch)%Z →
       readCSVInBatches papa_parse createReadStream filePath start batch
       = Unsettled err).
Proof.
  intros (Hs & Hb & Hmax). unfold readCSVInBatches. rewrite stream_fails.
  rewrite deliver_app_lines by done.
  destruct (feed_lines_count papa_parse start batch lines initial)
    as [_ ->]; try done; [lia|].
  split; intros Hlen.
  - rewrite bool_decide_eq_true_2 by done.
    destruct (feed_fold papa_parse start batch lines initial
                (initial_closedLate start batch)) as [-> _].
    fold (scanWholeFile papa_parse start batch lines).
    rewrite scanWholeFile_window. by rewrite keepWindow_take_drop.
  - by rewrite bool_decide_eq_false_2 by lia.
Qed.

(** X6: the count operation never resolves with a partial count: a fault
    anywhere in the stream leaves its promise unsettled. *)
Theorem count_of_failing_stream_is_unsettled :
  getRecordCount createReadStream filePath = Unsettled err.
Proof.
  unfold getRecordCount. rewrite stream_fails. apply countLines_fault.
Qed.

End FailingStreams.

(** ** The local copy of the initial dataset *)

Lemma existsSync_run path w :
  existsSync path w
  = (Resolved (bool_decide (path ∈ dirs w ∨ is_Some (files w !! path))),
     logged w [ExistsSync path]).
Proof. reflexivity. Qed.

Lemma logged_logged w a b : logged (logged w a) b = logged w (a ++ b).
Proof. unfold logged. simpl. by rewrite app_assoc. Qed.


Lemma download_cached this w :
  "./datasets" ∈ dirs w ∨ is_Some (files w !! "./datasets") →
  is_Some (files w !! datasetPath this) →
  downloadInitialDatasetFromS3 this w
  = (Resolved tt,
     logged w [ExistsSync "./datasets"; ExistsSync (datasetPath this)]).
Proof.
  intros Hfolder Hfile.
  unfold downloadInitialDatasetFromS3, unlessExists.
  unfold mbind, IO_bind. rewrite existsSync_run.
  rewrite bool_decide_eq_true_2 by done. unfold mret, IO_ret.
  rewrite existsSync_run.
  rewrite bool_decide_eq_true_2 by (by right).
  by rewrite logged_logged.
Qed.

(** X7: a dataset that is already in the ./datasets folder is not
    downloaded again: the method only asks twice whether a path exists; it
    fetches nothing and writes nothing. *)
Theorem cached_dataset_is_not_downloaded this w :
  "./datasets" ∈ dirs w ∨ is_Some (files w !! "./datasets") →
  is_Some (files w !! datasetPath this) →
  downloadInitialDatasetFromS3 this w
  = (Resolved tt,
     logged w [ExistsSync "./datasets"; ExistsSync (datasetPath this)]).
Proof. apply download_cached. Qed.








(** ** The public initial-dataset methods *)

Section DatasetMethods.

Context {any : Type}.
Variable papa_parse : string -> Papa.ParseResult any.

Local Abbreviation window lines start batch :=
  (omap (csvToJson papa_parse (capturedHeader lines))
     (take (Z.to_nat batch) (drop (Z.to_nat start) (dataLines lines)))).

Lemma read_from_world filePath start batch w lines :
  files w !! filePath = Some lines → (0 ≤ start)%Z →
  readCSVInBatchesIO papa_parse filePath start batch w
  = (Resolved (window lines start batch), logged w [CreateReadStream filePath]).
Proof.
  intros Hfile Hs. unfold readCSVInBatchesIO, perform, change, await.
  unfold mbind, IO_bind. simpl. f_equal.
  apply read_window; [|done]. unfold createReadStream. simpl. by rewrite Hfile.
Qed.

Lemma valid_dataset_branch this start batch :
  apiKind this = WFS → initialDataset this ≠ "" → initialDatasetTs this ≠ "" →
  validWindow start batch →
  getInitialDatasetInBatch papa_parse this start batch
  = (downloadInitialDatasetFromS3 this ;;
     records ← readCSVInBatchesIO papa_parse (datasetPath this) start batch;
     mret (Some records)).
Proof.
  intros Hkind Hds Hts (Hs & Hb & Hmax). unfold getInitialDatasetInBatch.
  rewrite decide_False by (intros Hne; by apply Hne).
  rewrite (bool_decide_eq_false_2 (batch ≤ 0)%Z) by lia.
  rewrite (bool_decide_eq_false_2 (batch > 100000)%Z) by lia.
  by rewrite !bool_decide_eq_true_2 by done.
Qed.

(** X10: for a WFS dataset with a file name and a timestamp, a valid
    window and a local copy in the folder, getInitialDatasetInBatch
    resolves with the parsed data lines start to start+batch-1 of that
    copy; it asks twice whether a path exists, opens the copy and does
    nothing else. *)
Theorem batch_of_cached_dataset this start batch w lines :
  apiKind this = WFS → initialDataset this ≠ "" → initialDatasetTs this ≠ "" →
  validWindow start batch →
  "./datasets" ∈ dirs w ∨ is_Some (files w !! "./datasets") →
  files w !! datasetPath this = Some lines →
  getInitialDatasetInBatch papa_parse this start batch w
  = (Resolved (Some (window lines start batch)),
     logged w [ExistsSync "./datasets"; ExistsSync (datasetPath this);
               CreateReadStream (datasetPath this)]).
Proof.
  intros Hkind Hds Hts Hvalid Hfolder Hfile.
  rewrite valid_dataset_branch by done.
  unfold mbind at 1. unfold IO_bind at 1.
  rewrite download_cached by (by rewrite ?Hfile).
  unfold mbind, IO_bind.
  rewrite (read_from_world _ _ _ _ lines) by (by destruct Hvalid).
  by rewrite logged_logged.
Qed.


(** X12: unless the dataset is a WFS dataset with a file name and a
    timestamp and the batch is in range, getInitialDatasetInBatch returns
    no records and leaves the folder and its files alone; the only thing
    it may do is log the message of the branch that loads nothing. *)
Theorem batch_without_valid_request_touches_nothing this start batch w p w' :
  getInitialDatasetInBatch papa_parse this start batch w = (p, w') →
  apiKind this ≠ WFS ∨ (batch ≤ 0)%Z ∨ (100000 < batch)%Z
  ∨ initialDataset this = "" ∨ initialDatasetTs this = "" →
  (∀ rs, p ≠ Resolved (Some rs))
  ∧ files w' = files w ∧ dirs w' = dirs w
  ∧ (w' = w
     ∨ w' = logged w [ConsoleLog "loading initial data from Koordinate website"]).
Proof.
  unfold getInitialDatasetInBatch, throw. intros Hrun Hbad.
  destruct (decide (apiKind this ≠ WFS)) as [Hkind|Hkind];
    [simplify_eq; repeat split; auto; done|].
  destruct (bool_decide (batch ≤ 0)%Z || bool_decide (batch > 100000)%Z)
    eqn:Hbatch; [simplify_eq; repeat split; auto; done|].
  apply orb_false_iff in Hbatch as [Hlow Hhigh].
  apply bool_decide_eq_false_1 in Hlow, Hhigh.
  destruct (bool_decide (initialDataset this ≠ "")) eqn:Hds,
    (bool_decide (initialDatasetTs this ≠ "")) eqn:Hts; simpl in Hrun.
  - apply bool_decide_eq_true_1 in Hds, Hts.
    destruct Hbad as [?|[?|[?|[?|?]]]]; try done; lia.
  - simplify_eq. repeat split; auto; done.
  - unfold perform, change, mbind, IO_bind, mret, IO_ret in Hrun.
    simpl in Hrun. simplify_eq. repeat split; try done. by right.
  - simplify_eq. repeat split; auto; done.
Qed.

End DatasetMethods.

Lemma perform_run a w : perform a w = (Resolved tt, logged w [a]).
Proof. reflexivity. Qed.

(** X13: getInitialDatasetCount has no guard on the kind of the dataset
    or on its timestamp: with a local copy in the folder it resolves with
    the number of lines after the first line of the copy, whatever the
    dataset is. *)
Theorem count_of_cached_dataset this w lines :
  "./datasets" ∈ dirs w ∨ is_Some (files w !! "./datasets") →
  files w !! datasetPath this = Some lines →
  getInitialDatasetCount this w
  = (Resolved (Z.of_nat (length (tail lines))),
     logged w [ExistsSync "./datasets"; ExistsSync (datasetPath this);
               CreateReadStream (datasetPath this)]).
Proof.
  intros Hfolder Hfile. unfold getInitialDatasetCount.
  unfold mbind at 1. unfold IO_bind at 1.
  rewrite download_cached by (by rewrite ?Hfile).
  unfold mbind, IO_bind. rewrite perform_run, logged_logged.
  unfold await. f_equal.
  apply getRecordCount_lines. unfold createReadStream. simpl. by rewrite Hfile.
Qed.

(** ** The dataset object *)

Module ClientFacts.
Import Client.

Local Set Warnings "-clear-no-such-hyp".

(** X14: the constructor accepts the parameters exactly when one of
    layerId and tableId is given and the other is left out; with neither
    and with both it throws, each case with its own message. *)
Theorem constructor_wants_exactly_one_id params :
  ((∃ this, constructor params = inr this)
   ↔ (is_Some (Params.layerId params) ∧ Params.tableId params = None)
     ∨ (Params.layerId params = None ∧ is_Some (Params.tableId params)))
  ∧ (Params.layerId params = None → Params.tableId params = None →
       constructor params = inl "layerId and tableId cannot be both undefined")
  ∧ (is_Some (Params.layerId params) → is_Some (Params.tableId params) →
       constructor params = inl "layerId and tableId cannot be assigned values").
Proof.
  unfold constructor.
  destruct (Params.layerId params) as [l|], (Params.tableId params) as [t|];
    repeat case_bool_decide; simpl; naive_solver.
Qed.

Lemma constructor_ids params this :
  constructor params = inr this →
  (Params.tableId params = None ∧ tableId this = (-1)%Z
   ∧ ∃ l, Params.layerId params = Some l ∧ layerId this = l)
  ∨ (Params.layerId params = None ∧ layerId this = (-1)%Z
     ∧ ∃ t, Params.tableId params = Some t ∧ tableId this = t).
Proof.
  unfold constructor.
  destruct (Params.layerId params) as [l|] eqn:El,
    (Params.tableId params) as [t|] eqn:Et;
    repeat case_bool_decide; intros Hnew; simplify_eq; simpl; naive_solver.
Qed.

Section Rendering.

Variable integerToString : Z → string.
Hypothesis decimal : decimalOnSafe integerToString.

Lemma safeInteger_minus_one : safeInteger (-1).
Proof. unfold safeInteger. lia. Qed.

(** X15: the id of a dataset the constructor has built, for ids that
    are safe integers (which a template literal writes in decimal).  A
    tableId above zero gives table-<tableId>; a layerId gives
    layer-<layerId>; a tableId that is zero or negative is not used at
    all: the id is layer--1, made of the layerId the constructor filled
    in. *)
Theorem datasetId_of_constructed params this :
  constructor params = inr this →
  (∀ t, Params.tableId params = Some t → (0 < t)%Z → safeInteger t →
     datasetId integerToString this = "table-" +:+ pretty t)
  ∧ (∀ l, Params.layerId params = Some l → safeInteger l →
       datasetId integerToString this = "layer-" +:+ pretty l)
  ∧ (∀ t, Params.tableId params = Some t → (t ≤ 0)%Z →
       datasetId integerToString this = "layer--1").
Proof.
  intros Hnew. unfold datasetId.
  destruct (constructor_ids params this Hnew)
    as [(Ht & -> & l & Hl & ->)|(Hl & -> & t & Ht & ->)].
  - rewrite Ht, Hl. repeat split; intros x Hx; simplify_eq.
    intros Hsafe. rewrite bool_decide_eq_false_2 by lia.
    by rewrite decimal.
  - rewrite Ht, Hl. repeat split; intros x Hx; simplify_eq; intros Hpos.
    + intros Hsafe. rewrite !bool_decide_eq_true_2 by done.
      by rewrite decimal.
    + rewrite !bool_decide_eq_false_2 by lia.
      by rewrite decimal by apply safeInteger_minus_one.
Qed.

(** X16: datasetId tells datasets apart.  For objects whose printed id
    is a safe integer, two datasetIds are equal exactly when both objects
    are table datasets or both are not, and the id they print (the
    tableId of a table dataset, the layerId otherwise) is the same; so
    datasets that differ in either get different datasetIds. *)
Theorem datasetId_tells_datasets_apart this other :
  safeInteger (usedId this) → safeInteger (usedId other) →
  datasetId integerToString this = datasetId integerToString other
  ↔ usesTable this = usesTable other ∧ usedId this = usedId other.
Proof.
  unfold datasetId, usedId, usesTable. intros Hthis Hother.
  rewrite (decimal _ Hthis), (decimal _ Hother). split.
  - intros H.
    destruct (bool_decide (0 < tableId this)%Z),
      (bool_decide (0 < tableId other)%Z);
      cbv [String.append] in H; simplify_eq; done.
  - intros [-> ->]. done.
Qed.

End Rendering.

Section Requests.

Variable integerToString : Z → string.
Context {any buffer number : Type}.
Variable numberToString : number → string.
Variable text : string → Promise string.
Variable json : string → Promise any.
Variable arrayBuffer : string → Promise buffer.

(** X17: changesets are opt-in.  A dataset built without hasChangesets
    (or with it false) gets the not-supported error, which names the
    dataset, from getWfsChangesets before any request, whatever its kind;
    one with changesets that is not a WFS dataset gets the WFS-only error;
    otherwise exactly one request goes out and its answer is the result. *)
Theorem changesets_need_flag_then_wfs params this apiKey timestampFrom timestampTo w :
  constructor params = inr this →
  (Params.hasChangesets params = None ∨ Params.hasChangesets params = Some false →
     getWfsChangesets integerToString json this apiKey timestampFrom timestampTo w
     = (Rejected ("Changesets API is not supported by dataset "
                  +:+ Params.name params +:+ "."), w))
  ∧ (Params.hasChangesets params = Some true → Params.apiKind params ≠ WFS →
       getWfsChangesets integerToString json this apiKey timestampFrom timestampTo w
       = (Rejected "Changesets API is available for WFS (Web Feature Service) only.",
          w))
  ∧ (Params.hasChangesets params = Some true → Params.apiKind params = WFS →
       getWfsChangesets integerToString json this apiKey timestampFrom timestampTo w
       = (json (wfsChangesetsEndpoint integerToString this apiKey timestampFrom timestampTo),
          logged w [Fetch (wfsChangesetsEndpoint integerToString this apiKey timestampFrom
                             timestampTo)])).
Proof.
  unfold constructor. repeat case_bool_decide; intros Hnew; simplify_eq.
  unfold getWfsChangesets, throw. simpl.
  split; [|split].
  - by intros [->| ->].
  - intros -> Hkind. simpl. by rewrite decide_True.
  - intros -> Hkind. simpl. rewrite decide_False by (intros Hne; by apply Hne).
    reflexivity.
Qed.

(** X18: the spatial queries and the tile query guard the kind before
    anything else.  On a WMTS dataset both WFS queries are rejected with
    the WFS-only message and on a WFS dataset the WMTS query and the tile
    query are rejected with the WMTS-only message, in each case without a
    request and whether or not the dataset has spatial information; so for
    every dataset at least one of the two JSON queries is refused. *)
Theorem spatial_queries_check_kind_first this apiKey latitude longitude
    maxResult radius x y zoomLevel w :
  (apiKind this = WMTS →
     queryWfsSpatialApiJson integerToString numberToString json this apiKey latitude longitude
       maxResult radius w
     = (Rejected "This method is applied to Web Feature Service datasets only", w)
     ∧ queryWfsSpatialApiXml integerToString numberToString text this apiKey latitude longitude
         maxResult radius w
       = (Rejected "This method is applied to Web Feature Service datasets only", w))
  ∧ (apiKind this = WFS →
       queryWmtsSpatialApiJson integerToString numberToString json this apiKey latitude longitude w
       = (Rejected "This method is applied to Web Map Tile Service datasets only", w)
       ∧ queryXyzTileServiceApi integerToString arrayBuffer this apiKey x y zoomLevel w
         = (Rejected "This method is applied to Web Map Tile Service datasets only",
            w))
  ∧ ((∃ message,
        queryWfsSpatialApiJson integerToString numberToString json this apiKey latitude longitude
          maxResult radius w = (Rejected message, w))
     ∨ (∃ message,
          queryWmtsSpatialApiJson integerToString numberToString json this apiKey latitude
            longitude w = (Rejected message, w))).
Proof.
  unfold queryWfsSpatialApiJson, queryWfsSpatialApiXml, queryWmtsSpatialApiJson,
    queryXyzTileServiceApi, throw.
  split; [|split].
  - intros ->. by rewrite !decide_True.
  - intros ->. by rewrite !decide_True.
  - destruct (apiKind this).
    + right. eexists. by rewrite decide_True.
    + left. eexists. by rewrite decide_True.
Qed.

(** X19: spatial queries are opt-in as well.  A dataset built without
    hasSpatialInformation never sends a spatial query: the three spatial
    queries are rejected and the world is left as it was. *)
Theorem spatial_queries_need_flag params this apiKey latitude longitude
    maxResult radius w :
  constructor params = inr this →
  Params.hasSpatialInformation params = None
  ∨ Params.hasSpatialInformation params = Some false →
  (∃ message,
     queryWfsSpatialApiJson integerToString numberToString json this apiKey latitude longitude
       maxResult radius w = (Rejected message, w))
  ∧ (∃ message,
       queryWfsSpatialApiXml integerToString numberToString text this apiKey latitude longitude
         maxResult radius w = (Rejected message, w))
  ∧ (∃ message,
       queryWmtsSpatialApiJson integerToString numberToString json this apiKey latitude
         longitude w = (Rejected message, w)).
Proof.
  unfold constructor. repeat case_bool_decide; intros Hnew Hflag; simplify_eq.
  unfold queryWfsSpatialApiJson, queryWfsSpatialApiXml, queryWmtsSpatialApiJson,
    throw. simpl.
  assert (match Params.hasSpatialInformation params with
          | Some b => b | None => false end = false) as ->
    by (by destruct Hflag as [-> | ->]).
  simpl. repeat split; case_decide; eauto.
Qed.

End Requests.

End ClientFacts.

(** ** The further properties at work *)

Lemma consecutive_batches_concatenate_witness :
  ∃ first second,
    readCSVInBatches Papa.parse (onDisk aliceBob) "./datasets/people.csv" 0 1
    = Resolved first
    ∧ readCSVInBatches Papa.parse (onDisk aliceBob) "./datasets/people.csv"
        (0 + 1) 1
      = Resolved second
    ∧ readCSVInBatches Papa.parse (onDisk aliceBob) "./datasets/people.csv"
        0 (1 + 1)
      = Resolved (first ++ second).
Proof.
  apply (consecutive_batches_concatenate Papa.parse (onDisk aliceBob)
           "./datasets/people.csv" aliceBob eq_refl 0 1 1); lia.
Defined.

Lemma close_handler_sees_window_end_witness :
  closed (feed Papa.parse 0 1 initial aliceBob)
  = bool_decide (0 + 1 < Z.of_nat (length (dataLines aliceBob)))%Z
  ∧ recordCount (feed Papa.parse 0 1 initial aliceBob)
    = Z.min (Z.of_nat (length (dataLines aliceBob))) (0 + 1).
Proof.
  apply (close_handler_sees_window_end Papa.parse aliceBob 0 1).
  unfold validWindow. lia.
Defined.

Lemma batch_within_record_count_witness :
  ∃ rs n,
    readCSVInBatches Papa.parse (onDisk aliceBob) "./datasets/people.csv" 0 10
    = Resolved rs
    ∧ getRecordCount (onDisk aliceBob) "./datasets/people.csv" = Resolved n
    ∧ (Z.of_nat (length rs) ≤ n)%Z.
Proof.
  apply (batch_within_record_count Papa.parse (onDisk aliceBob)
           "./datasets/people.csv" aliceBob eq_refl 0 10).
Defined.

Lemma negative_start_clips_window_witness :
  readCSVInBatches Papa.parse (onDisk aliceBob) "./datasets/people.csv" (-1) 2
  = Resolved (omap (csvToJson Papa.parse (capturedHeader aliceBob))
                (take (Z.to_nat (-1 + 2)) (dataLines aliceBob))).
Proof.
  apply (negative_start_clips_window Papa.parse (onDisk aliceBob)
           "./datasets/people.csv" aliceBob eq_refl (-1) 2). lia.
Defined.

Lemma fault_after_window_is_not_seen_witness :
  readCSVInBatches Papa.parse (fun _ => emits brokenAfterBob)
    "./datasets/people.csv" 0 2
  = Unsettled "EIO: i/o error, read".
Proof.
  destruct (fault_after_window_is_not_seen Papa.parse
              (fun _ => emits brokenAfterBob) "./datasets/people.csv"
              aliceBob "EIO: i/o error, read" [] eq_refl 0 2) as [_ Hfault].
  - unfold validWindow. lia.
  - apply Hfault. simpl. lia.
Defined.

Lemma count_of_failing_stream_is_unsettled_witness :
  getRecordCount (fun _ => emits brokenAfterBob) "./datasets/people.csv"
  = Unsettled "EIO: i/o error, read".
Proof.
  apply (count_of_failing_stream_is_unsettled (fun _ => emits brokenAfterBob)
           "./datasets/people.csv" aliceBob "EIO: i/o error, read" [] eq_refl).
Defined.

Lemma cachedWorld_folder :
  "./datasets" ∈ dirs cachedWorld ∨ is_Some (files cachedWorld !! "./datasets").
Proof. left. vm_compute. reflexivity. Qed.

Lemma cached_dataset_is_not_downloaded_witness :
  downloadInitialDatasetFromS3 nzAddresses cachedWorld
  = (Resolved tt,
     logged cachedWorld
       [ExistsSync "./datasets"; ExistsSync (datasetPath nzAddresses)]).
Proof.
  apply (cached_dataset_is_not_downloaded nzAddresses cachedWorld).
  - exact cachedWorld_folder.
  - exists aliceBob. reflexivity.
Defined.



Lemma batch_of_cached_dataset_witness :
  getInitialDatasetInBatch Papa.parse nzAddresses 1 10 cachedWorld
  = (Resolved (Some (omap (csvToJson Papa.parse (capturedHeader aliceBob))
                       (take (Z.to_nat 10) (drop (Z.to_nat 1) (dataLines aliceBob))))),
     logged cachedWorld
       [ExistsSync "./datasets"; ExistsSync (datasetPath nzAddresses);
        CreateReadStream (datasetPath nzAddresses)]).
Proof.
  apply (batch_of_cached_dataset Papa.parse nzAddresses 1 10 cachedWorld aliceBob).
  - reflexivity.
  - discriminate.
  - discriminate.
  - unfold validWindow. lia.
  - exact cachedWorld_folder.
  - reflexivity.
Defined.


Lemma batch_without_valid_request_touches_nothing_witness :
  (∀ rs : list Papa.JsObject,
     Rejected "Initial dataset is available for WFS (Web Feature Service) only."
     ≠ Resolved (Some rs))
  ∧ files cachedWorld = files cachedWorld ∧ dirs cachedWorld = dirs cachedWorld
  ∧ (cachedWorld = cachedWorld
     ∨ cachedWorld
       = logged cachedWorld
           [ConsoleLog "loading initial data from Koordinate website"]).
Proof.
  apply (batch_without_valid_request_touches_nothing Papa.parse wmtsDataset 0 10
           cachedWorld
           (Rejected "Initial dataset is available for WFS (Web Feature Service) only.")
           cachedWorld).
  - reflexivity.
  - left. discriminate.
Defined.

Lemma count_of_cached_dataset_witness :
  getInitialDatasetCount wmtsDataset cachedWorld
  = (Resolved (Z.of_nat (length (tail aliceBob))),
     logged cachedWorld
       [ExistsSync "./datasets"; ExistsSync (datasetPath wmtsDataset);
        CreateReadStream (datasetPath wmtsDataset)]).
Proof.
  apply (count_of_cached_dataset wmtsDataset cachedWorld aliceBob).
  - exact cachedWorld_folder.
  - reflexivity.
Defined.

Lemma constructor_wants_exactly_one_id_witness :
  ∃ this, Client.constructor layerParams = inr this.
Proof.
  destruct (ClientFacts.constructor_wants_exactly_one_id layerParams)
    as [[_ Hbuilds] _].
  apply Hbuilds. left. split; [by eexists|reflexivity].
Defined.

Lemma pretty_decimalOnSafe : Client.decimalOnSafe pretty.
Proof. intros n _. reflexivity. Qed.

Lemma datasetId_of_constructed_witness :
  Client.datasetId pretty (built (tableParams 4321)) = "table-" +:+ pretty 4321%Z
  ∧ Client.datasetId pretty (built layerParams) = "layer-" +:+ pretty 105689%Z
  ∧ Client.datasetId pretty (built (tableParams 0)) = "layer--1".
Proof.
  split; [|split].
  - destruct (ClientFacts.datasetId_of_constructed pretty pretty_decimalOnSafe
                (tableParams 4321) (built (tableParams 4321)) eq_refl)
      as (Htable & _ & _).
    apply Htable; [reflexivity|lia|unfold Client.safeInteger; lia].
  - destruct (ClientFacts.datasetId_of_constructed pretty pretty_decimalOnSafe
                layerParams (built layerParams) eq_refl) as (_ & Hlayer & _).
    apply Hlayer; [reflexivity|unfold Client.safeInteger; lia].
  - destruct (ClientFacts.datasetId_of_constructed pretty pretty_decimalOnSafe
                (tableParams 0) (built (tableParams 0)) eq_refl)
      as (_ & _ & Hzero).
    apply (Hzero 0%Z); [reflexivity|lia].
Defined.

Lemma datasetId_tells_datasets_apart_witness :
  Client.datasetId pretty (built (tableParams 7))
  ≠ Client.datasetId pretty (built (tableParams 8))
  ∧ Client.datasetId pretty (built (tableParams 7))
    ≠ Client.datasetId pretty (built layerParams).
Proof.
  split; intros Hsame.
  - apply (ClientFacts.datasetId_tells_datasets_apart pretty pretty_decimalOnSafe
             (built (tableParams 7)) (built (tableParams 8))) in Hsame
      as [_ Hid]; [discriminate| |]; vm_compute; discriminate.
  - apply (ClientFacts.datasetId_tells_datasets_apart pretty pretty_decimalOnSafe
             (built (tableParams 7)) (built layerParams)) in Hsame
      as [Hkind _]; [discriminate| |]; vm_compute; discriminate.
Defined.

Lemma changesets_need_flag_then_wfs_witness :
  Client.getWfsChangesets pretty (fun _ => Resolved "[]") (built layerParams)
    "key" "2024-01-01T00:00:00Z" "2024-02-01T00:00:00Z" emptyWorld
  = (Rejected "Changesets API is not supported by dataset NZ Addresses.",
     emptyWorld).
Proof.
  destruct (ClientFacts.changesets_need_flag_then_wfs pretty
              (fun _ => Resolved "[]")
              layerParams (built layerParams) "key" "2024-01-01T00:00:00Z"
              "2024-02-01T00:00:00Z" emptyWorld eq_refl) as (Hflag & _ & _).
  apply Hflag. left. reflexivity.
Defined.

Lemma spatial_queries_check_kind_first_witness :
  Client.queryWmtsSpatialApiJson pretty (pretty : Z → string)
    (fun _ => Resolved "{}") (built (tableParams 7)) "key" (-37)%Z 175%Z
    emptyWorld
  = (Rejected "This method is applied to Web Map Tile Service datasets only",
     emptyWorld)
  ∧ Client.queryXyzTileServiceApi pretty (fun _ => Resolved "png")
      (built (tableParams 7)) "key" 827933 3729820 None emptyWorld
    = (Rejected "This method is applied to Web Map Tile Service datasets only",
       emptyWorld).
Proof.
  destruct (ClientFacts.spatial_queries_check_kind_first pretty
              (pretty : Z → string)
              (fun _ => Resolved "<xml/>") (fun _ => Resolved "{}")
              (fun _ => Resolved "png") (built (tableParams 7)) "key"
              (-37)%Z 175%Z 10%Z 100%Z 827933 3729820 None emptyWorld)
    as (_ & Hwfs & _).
  apply Hwfs. reflexivity.
Defined.

Lemma spatial_queries_need_flag_witness :
  (∃ message,
     Client.queryWfsSpatialApiJson pretty (pretty : Z → string)
       (fun _ => Resolved "{}")
       (built layerParams) "key" (-37)%Z 175%Z 10%Z 100%Z emptyWorld
     = (Rejected message, emptyWorld))
  ∧ (∃ message,
       Client.queryWfsSpatialApiXml pretty (pretty : Z → string)
         (fun _ => Resolved "<xml/>") (built layerParams) "key" (-37)%Z 175%Z
         10%Z 100%Z emptyWorld
       = (Rejected message, emptyWorld))
  ∧ (∃ message,
       Client.queryWmtsSpatialApiJson pretty (pretty : Z → string)
         (fun _ => Resolved "{}") (built layerParams) "key" (-37)%Z 175%Z
         emptyWorld
       = (Rejected message, emptyWorld)).
Proof.
  apply (ClientFacts.spatial_queries_need_flag pretty (pretty : Z → string)
           (fun _ => Resolved "<xml/>") (fun _ => Resolved "{}") layerParams
           (built layerParams) "key" (-37)%Z 175%Z 10%Z 100%Z emptyWorld eq_refl).
  left. reflexivity.
Defined.
